(** * chksvs: conversion of hadock-wrapped SVS captures to CSV and XML

    A shallow embedding of [chksvs.go].  Go values are modelled as follows:
    - unsigned and signed machine integers are [Z], conversions that can wrap
      are written out;
    - byte slices and file contents are [list byte], Go strings are [string];
    - the file system is a finite map from paths to contents together with a
      finite set of directories;
    - a [panic] and a loop that is still running are explicit results, see
      [exec]. *)

From Stdlib Require Import ZArith Lia List Ascii String Bool.
From Stdlib Require Import DecimalString HexadecimalString.
From Stdlib.Strings Require Import Byte.
From stdpp Require Import gmap strings list fin_maps.
Import ListNotations.
Local Open Scope Z_scope.

(** ** Bytes and errors *)

(** [uint64(b)] and friends for a byte [b]. *)
Definition u8 (b : byte) : Z := Z.of_N (Byte.to_N b).

(** [b[i]] widened to an integer; the callers below only index inside the
    slice. *)
Definition byte_at (b : list byte) (i : nat) : Z := u8 (nth i b x00).

(** The [error] values that the modelled code can return. *)
Inductive error : Type :=
| EOF                 (* io.EOF *)
| ErrUnexpectedEOF    (* io.ErrUnexpectedEOF *)
| ENOENT (path : string)
| ENOTDIR (path : string)
| EISDIR (path : string).

(** ** encoding/binary *)

(** The [binary.ByteOrder] interface, restricted to the methods that
    [binary.Read] uses for the integer kinds of this program. *)
Class ByteOrder : Type := {
  Uint16 : list byte -> Z;
  Uint32 : list byte -> Z;
  Uint64 : list byte -> Z
}.

#[export] Instance LittleEndian : ByteOrder := {|
  Uint16 b := Z.lor (byte_at b 0) (Z.shiftl (byte_at b 1) 8);
  Uint32 b :=
    Z.lor (Z.lor (Z.lor (byte_at b 0) (Z.shiftl (byte_at b 1) 8))
                 (Z.shiftl (byte_at b 2) 16))
          (Z.shiftl (byte_at b 3) 24);
  Uint64 b :=
    Z.lor (Z.lor (Z.lor (Z.lor (Z.lor (Z.lor (Z.lor
      (byte_at b 0) (Z.shiftl (byte_at b 1) 8))
      (Z.shiftl (byte_at b 2) 16)) (Z.shiftl (byte_at b 3) 24))
      (Z.shiftl (byte_at b 4) 32)) (Z.shiftl (byte_at b 5) 40))
      (Z.shiftl (byte_at b 6) 48)) (Z.shiftl (byte_at b 7) 56)
|}.

#[export] Instance BigEndian : ByteOrder := {|
  Uint16 b := Z.lor (byte_at b 1) (Z.shiftl (byte_at b 0) 8);
  Uint32 b :=
    Z.lor (Z.lor (Z.lor (byte_at b 3) (Z.shiftl (byte_at b 2) 8))
                 (Z.shiftl (byte_at b 1) 16))
          (Z.shiftl (byte_at b 0) 24);
  Uint64 b :=
    Z.lor (Z.lor (Z.lor (Z.lor (Z.lor (Z.lor (Z.lor
      (byte_at b 7) (Z.shiftl (byte_at b 6) 8))
      (Z.shiftl (byte_at b 5) 16)) (Z.shiftl (byte_at b 4) 24))
      (Z.shiftl (byte_at b 3) 32)) (Z.shiftl (byte_at b 2) 40))
      (Z.shiftl (byte_at b 1) 48)) (Z.shiftl (byte_at b 0) 56)
|}.

(** [io.ReadFull(r, buf)] with [len(buf) = n] on a reader whose remaining
    content is [r]: the bytes read (or the error) and the reader afterwards. *)
Definition io_ReadFull (n : nat) (r : list byte) : (list byte + error) * list byte :=
  match n with
  | O => (inl [], r)
  | S _ =>
      match r with
      | [] => (inr EOF, r)
      | _ => if (length r <? n)%nat then (inr ErrUnexpectedEOF, [])
             else (inl (take n r), drop n r)
      end
  end.

(** The decoder of [binary.Read]: a buffer and an offset that moves forward
    by the width of each value decoded.  The buffer is kept as the part that
    is still to decode. *)
Definition decoder (A : Type) : Type := list byte -> A * list byte.

Definition dec_ret {A} (a : A) : decoder A := fun buf => (a, buf).
Definition dec_bind {A B} (m : decoder A) (k : A -> decoder B) : decoder B :=
  fun buf => let (a, buf') := m buf in k a buf'.

Declare Scope dec_scope.
Delimit Scope dec_scope with dec.
Notation "'let*' x := m 'in' k" := (dec_bind m (fun x => k))
  (at level 10, x name, m at level 100, k at level 200) : dec_scope.

Definition dec_uint8 : decoder Z := fun buf => (byte_at buf 0, drop 1 buf).
Definition dec_uint16 `{ByteOrder} : decoder Z := fun buf => (Uint16 buf, drop 2 buf).
Definition dec_uint32 `{ByteOrder} : decoder Z := fun buf => (Uint32 buf, drop 4 buf).
Definition dec_uint64 `{ByteOrder} : decoder Z := fun buf => (Uint64 buf, drop 8 buf).
(** A [[n]byte] array is decoded element by element. *)
Definition dec_bytes (n : nat) : decoder (list byte) := fun buf => (take n buf, drop n buf).

(** ** The types of the program *)

Definition magic : string := "SVS ".
Definition bad : string := ".bad".
Definition DefaultWorkers : Z := 4.
Definition DefaultFiles : Z := 512.

(** [type UPI [32]byte] and [type Timestamp uint64]. *)
Definition UPI : Type := list byte.
Definition Timestamp : Type := Z.

Record Metadata : Type := {
  Magic       : Z;          (* uint8,  xml:"-" *)
  Acquisition : Timestamp;  (* xml:"acquisition-time" *)
  Sequence    : Z;          (* uint32, xml:"originator-seq-no" *)
  Auxiliary   : Z;          (* uint64, xml:"auxiliary-time" *)
  Source      : Z;          (* uint8,  xml:"originator-id" *)
  X           : Z;          (* uint16, xml:"source-x-size" *)
  Y           : Z;          (* uint16, xml:"source-y-size" *)
  Format      : Z;          (* uint8,  xml:"format" *)
  Drop        : Z;          (* uint16, xml:"fdrp" *)
  OffsetX     : Z;          (* uint16, xml:"roi-x-offset" *)
  SizeX       : Z;          (* uint16, xml:"roi-x-size" *)
  OffsetY     : Z;          (* uint16, xml:"roi-y-offset" *)
  SizeY       : Z;          (* uint16, xml:"roi-y-size" *)
  ScaleX      : Z;          (* uint16, xml:"scale-x-size" *)
  ScaleY      : Z;          (* uint16, xml:"scale-y-size" *)
  Ratio       : Z;          (* uint8,  xml:"scale-far" *)
  Upi         : UPI         (* field UPI, xml:"user-packet-info" *)
}.

(** [binary.Size] of a [Metadata]: the widths of its fields, in order. *)
Definition Metadata_size : nat :=
  (1 + 8 + 4 + 8 + 1 + 2 + 2 + 1 + 2 + 2 + 2 + 2 + 2 + 2 + 2 + 1 + 32)%nat.

(** The field-by-field decoding that [binary.Read] performs on a
    [*Metadata]: every field of the struct is decoded, in declaration order,
    the first one being [Magic]. *)
Definition dec_Metadata `{ByteOrder} : decoder Metadata :=
  (let* m := dec_uint8 in
   let* acq := dec_uint64 in
   let* sq := dec_uint32 in
   let* aux := dec_uint64 in
   let* src := dec_uint8 in
   let* x := dec_uint16 in
   let* y := dec_uint16 in
   let* fmt := dec_uint8 in
   let* drp := dec_uint16 in
   let* ox := dec_uint16 in
   let* sx := dec_uint16 in
   let* oy := dec_uint16 in
   let* sy := dec_uint16 in
   let* cx := dec_uint16 in
   let* cy := dec_uint16 in
   let* rt := dec_uint8 in
   let* upi := dec_bytes 32 in
   dec_ret {| Magic := m; Acquisition := acq; Sequence := sq; Auxiliary := aux;
              Source := src; X := x; Y := y; Format := fmt; Drop := drp;
              OffsetX := ox; SizeX := sx; OffsetY := oy; SizeY := sy;
              ScaleX := cx; ScaleY := cy; Ratio := rt; Upi := upi |})%dec.

(** [binary.Read(r, order, &info)] for [info : Metadata]: one [io.ReadFull]
    of [binary.Size(info)] bytes, then the decoding of the buffer. *)
Definition binary_Read_Metadata `{ByteOrder} (r : list byte)
  : (Metadata + error) * list byte :=
  match io_ReadFull Metadata_size r with
  | (inl buf, r') => (inl (fst (dec_Metadata buf)), r')
  | (inr e, r') => (inr e, r')
  end.

(** The envelope [struct { FCC [4]byte; Seq uint32; When Timestamp }] of
    [processFile]. *)
Record envelope : Type := {
  FCC  : list byte;
  Seq  : Z;
  When : Timestamp
}.

Definition envelope_size : nat := (4 + 4 + 8)%nat.

Definition dec_envelope `{ByteOrder} : decoder envelope :=
  (let* fcc := dec_bytes 4 in
   let* sq := dec_uint32 in
   let* wh := dec_uint64 in
   dec_ret {| FCC := fcc; Seq := sq; When := wh |})%dec.

Definition binary_Read_envelope `{ByteOrder} (r : list byte)
  : (envelope + error) * list byte :=
  match io_ReadFull envelope_size r with
  | (inl buf, r') => (inl (fst (dec_envelope buf)), r')
  | (inr e, r') => (inr e, r')
  end.

(** ** The wire layout, stated on its own *)

(** The value of a little-endian field: byte [i] weighs [256^i]. *)
Fixpoint le_value (bs : list byte) : Z :=
  match bs with
  | [] => 0
  | b :: bs' => u8 b + 256 * le_value bs'
  end.

(** The [n] bytes found at offset [off]. *)
Definition field (off n : nat) (bs : list byte) : list byte := take n (drop off bs).

(** ** strconv and fmt *)

(** [strconv.FormatUint(n, 10)] for [0 <= n]. *)
Definition FormatUint (n : Z) : string :=
  DecimalString.NilZero.string_of_uint (N.to_uint (Z.to_N n)).

(** [strconv.FormatUint(n, 16)] for [0 <= n], lower-case digits. *)
Definition FormatHex (n : Z) : string :=
  HexadecimalString.NilZero.string_of_uint (N.to_hex_uint (Z.to_N n)).

(** [strconv.Itoa]. *)
Definition Itoa (n : Z) : string :=
  if n <? 0 then String "-" (FormatUint (- n)) else FormatUint n.

(** [s] preceded by as many ['0'] as it takes to reach [width] characters. *)
Definition zero_pad (width : nat) (s : string) : string :=
  string_of_list_ascii (replicate (width - String.length s) "0"%char) +:+ s.

(** The verb [%0<width>d] of [fmt]: the sign counts in the width and the
    zeros come after it. *)
Definition Sprintf_0d (width : nat) (n : Z) : string :=
  if n <? 0 then String "-" (zero_pad (width - 1) (FormatUint (- n)))
  else zero_pad width (FormatUint n).

(** The verb [%0<width>x] of [fmt] on an unsigned integer. *)
Definition Sprintf_0x (width : nat) (n : Z) : string :=
  zero_pad width (FormatHex n).

(** ** strings, bytes and path/filepath *)

(** [strings.Split(s, sep)] for a separator of one character. *)
Fixpoint strings_Split (s : string) (sep : ascii) : list string :=
  match s with
  | EmptyString => [EmptyString]
  | String c s' =>
      if Ascii.eqb c sep then EmptyString :: strings_Split s' sep
      else match strings_Split s' sep with
           | h :: t => String c h :: t
           | [] => [String c EmptyString]
           end
  end.

(** [strings.Join(elems, sep)]. *)
Fixpoint strings_Join (elems : list string) (sep : string) : string :=
  match elems with
  | [] => EmptyString
  | [e] => e
  | e :: es => e +:+ sep +:+ strings_Join es sep
  end.

(** The slice expression [s[lo:hi]] on a slice whose capacity is its length:
    out of range it panics, which is [None] here. *)
Definition slice_expr {A} (s : list A) (lo hi : Z) : option (list A) :=
  if (0 <=? lo) && (lo <=? hi) && (hi <=? Z.of_nat (length s))
  then Some (take (Z.to_nat (hi - lo)) (drop (Z.to_nat lo) s))
  else None.

(** [bytes.Equal]. *)
Fixpoint bytes_Equal (a b : list byte) : bool :=
  match a, b with
  | [], [] => true
  | x :: a', y :: b' => Byte.eqb x y && bytes_Equal a' b'
  | _, _ => false
  end.

(** [bytes.Trim(xs, cutset)] for a cutset of one byte. *)
Fixpoint trim_left (c : byte) (xs : list byte) : list byte :=
  match xs with
  | x :: xs' => if Byte.eqb x c then trim_left c xs' else xs
  | [] => []
  end.

Definition bytes_Trim (xs : list byte) (c : byte) : list byte :=
  rev (trim_left c (rev (trim_left c xs))).

Definition slash : ascii := "/"%char.

Fixpoint drop_slashes (cs : list ascii) : list ascii :=
  match cs with
  | c :: cs' => if Ascii.eqb c slash then drop_slashes cs' else cs
  | [] => []
  end.

Fixpoint until_slash (cs : list ascii) : list ascii :=
  match cs with
  | c :: cs' => if Ascii.eqb c slash then [] else c :: until_slash cs'
  | [] => []
  end.

(** [filepath.Base] on Unix: trailing separators are stripped, the last
    element is kept; an empty path gives ["."], a path of separators only
    gives ["/"]. *)
Definition filepath_Base (path : string) : string :=
  match path with
  | EmptyString => "."
  | _ =>
      let stripped := drop_slashes (rev (list_ascii_of_string path)) in
      match rev (until_slash stripped) with
      | [] => "/"
      | cs => string_of_list_ascii cs
      end
  end.

(** The elements that [filepath.Clean] keeps, most recent first: empty
    elements and ["."] vanish, [".."] removes the element before it, stays
    when there is nothing to remove in a relative path, and vanishes at the
    root. *)
Fixpoint clean_elems (rooted : bool) (kept : list string) (elems : list string)
  : list string :=
  match elems with
  | [] => kept
  | e :: es =>
      if (e =? "")%string || (e =? ".")%string then clean_elems rooted kept es
      else if (e =? "..")%string then
        match kept with
        | top :: rest =>
            if (top =? "..")%string then clean_elems rooted (e :: kept) es
            else clean_elems rooted rest es
        | [] => if rooted then clean_elems rooted [] es
                else clean_elems rooted [e] es
        end
      else clean_elems rooted (e :: kept) es
  end.

(** [filepath.Clean] on Unix. *)
Definition filepath_Clean (path : string) : string :=
  let rooted := match path with String c _ => Ascii.eqb c slash | _ => false end in
  let kept := rev (clean_elems rooted [] (strings_Split path slash)) in
  match (if rooted then "/" else "") +:+ strings_Join kept "/" with
  | EmptyString => "."
  | p => p
  end.

(** [filepath.Join]: the elements from the first non-empty one on are joined
    with the separator and the result is cleaned. *)
Fixpoint filepath_Join (elem : list string) : string :=
  match elem with
  | [] => EmptyString
  | e :: es =>
      if (e =? "")%string then filepath_Join es
      else filepath_Clean (strings_Join elem "/")
  end.

(** The directory part of a cleaned path: what precedes its last separator. *)
Definition filepath_Dir (path : string) : string :=
  let cs := rev (drop_slashes (drop (length (until_slash (rev (list_ascii_of_string path))))
                                    (rev (list_ascii_of_string path)))) in
  match cs with
  | [] => match path with
          | String c _ => if Ascii.eqb c slash then "/" else "."
          | EmptyString => "."
          end
  | _ => string_of_list_ascii cs
  end.

(** A cleaned path and the directories above it, outermost first (the root
    and the working directory are not listed). *)
Fixpoint path_prefixes (pre : string) (p : string) : list string :=
  match p with
  | EmptyString => [pre]
  | String c p' =>
      (if Ascii.eqb c slash && negb (pre =? "")%string then [pre] else [])
        ++ path_prefixes (pre +:+ String c EmptyString) p'
  end.

(** ** package time, as far as the program uses it *)

(** An instant in UTC: seconds since 1970-01-01T00:00:00Z and nanoseconds
    within the second. *)
Record Time : Type := { unix_sec : Z; nanos : Z }.

(** Days since 1970-01-01 of a date of the proleptic Gregorian calendar. *)
Definition days_from_civil (y m d : Z) : Z :=
  let y' := if m <=? 2 then y - 1 else y in
  let era := y' / 400 in
  let yoe := y' - era * 400 in
  let mp := (m + 9) mod 12 in
  let doy := (153 * mp + 2) / 5 + d - 1 in
  let doe := yoe * 365 + yoe / 4 - yoe / 100 + doy in
  era * 146097 + doe - 719468.

(** The date (year, month, day) of a day count since 1970-01-01. *)
Definition civil_from_days (z : Z) : Z * Z * Z :=
  let z' := z + 719468 in
  let era := z' / 146097 in
  let doe := z' - era * 146097 in
  let yoe := (doe - doe / 1460 + doe / 36524 - doe / 146096) / 365 in
  let doy := doe - (365 * yoe + yoe / 4 - yoe / 100) in
  let mp := (5 * doy + 2) / 153 in
  let d := doy - (153 * mp + 2) / 5 + 1 in
  let m := if mp <? 10 then mp + 3 else mp - 9 in
  let y := yoe + era * 400 in
  (if m <=? 2 then y + 1 else y, m, d).

(** [time.Date(year, month, day, hour, min, sec, nsec, time.UTC)] for
    arguments in their normal ranges. *)
Definition time_Date (year month day hour min sec nsec : Z) : Time :=
  {| unix_sec := days_from_civil year month day * 86400 + hour * 3600 + min * 60 + sec;
     nanos := nsec |}.

(** [Time.Add(d)] for a duration [d] in nanoseconds: Go's [/] and [%]
    truncate towards zero. *)
Definition Time_Add (t : Time) (d : Z) : Time :=
  let dsec := Z.quot d 1000000000 in
  let nsec := nanos t + Z.rem d 1000000000 in
  if 1000000000 <=? nsec then {| unix_sec := unix_sec t + (dsec + 1); nanos := nsec - 1000000000 |}
  else if nsec <? 0 then {| unix_sec := unix_sec t + (dsec - 1); nanos := nsec + 1000000000 |}
  else {| unix_sec := unix_sec t + dsec; nanos := nsec |}.

Definition Time_Year (t : Time) : Z := fst (fst (civil_from_days (unix_sec t / 86400))).
Definition Time_Month (t : Time) : Z := snd (fst (civil_from_days (unix_sec t / 86400))).
Definition Time_Day (t : Time) : Z := snd (civil_from_days (unix_sec t / 86400)).
Definition Time_Hour (t : Time) : Z := (unix_sec t mod 86400) / 3600.
Definition Time_Minute (t : Time) : Z := ((unix_sec t mod 86400) mod 3600) / 60.
Definition Time_Second (t : Time) : Z := (unix_sec t mod 86400) mod 60.
Definition Time_YearDay (t : Time) : Z :=
  unix_sec t / 86400 - days_from_civil (Time_Year t) 1 1 + 1.

(** The layout elements of [Time.Format] that consist of digits.  The
    elements made of letters (month and weekday names, [PM], [MST]) and the
    zone offsets ([-07], [Z07]) are left out: no layout of the program
    contains one, its letters [T] and [Z] and its [-] and [:] are literal
    text for [Format]. *)
Inductive std : Type :=
| stdLongYear      (* "2006" *)
| stdYear          (* "06" *)
| stdNumMonth      (* "1" *)
| stdZeroMonth     (* "01" *)
| stdDay           (* "2" *)
| stdUnderDay      (* "_2" *)
| stdZeroDay       (* "02" *)
| stdUnderYearDay  (* "__2" *)
| stdZeroYearDay   (* "002" *)
| stdHour          (* "15" *)
| stdHour12        (* "3" *)
| stdZeroHour12    (* "03" *)
| stdMinute        (* "4" *)
| stdZeroMinute    (* "04" *)
| stdSecond        (* "5" *)
| stdZeroSecond    (* "05" *)
| stdFracSecond (nine : bool) (digits : nat) (sep : ascii). (* ".000", ".999" *)

Definition is_digit (c : ascii) : bool :=
  let n := nat_of_ascii c in ((48 <=? n) && (n <=? 57))%nat.

(** The length of the run of [c] that starts [s]. *)
Fixpoint run_length (c : ascii) (s : string) : nat :=
  match s with
  | String c' s' => if Ascii.eqb c' c then S (run_length c s') else O
  | EmptyString => O
  end.

Definition char_at (s : string) (i : nat) : option ascii := String.get i s.

(** The case analysis of [nextStdChunk] at the first character of [layout]:
    the element that starts there and its length, if one does. *)
Definition std_at (layout : string) : option (std * nat) :=
  match layout with
  | String "0" rest =>
      match rest with
      | String "1" _ => Some (stdZeroMonth, 2%nat)
      | String "2" _ => Some (stdZeroDay, 2%nat)
      | String "3" _ => Some (stdZeroHour12, 2%nat)
      | String "4" _ => Some (stdZeroMinute, 2%nat)
      | String "5" _ => Some (stdZeroSecond, 2%nat)
      | String "6" _ => Some (stdYear, 2%nat)
      | String "0" (String "2" _) => Some (stdZeroYearDay, 3%nat)
      | _ => None
      end
  | String "1" rest =>
      match rest with
      | String "5" _ => Some (stdHour, 2%nat)
      | _ => Some (stdNumMonth, 1%nat)
      end
  | String "2" rest =>
      if String.prefix "006" rest then Some (stdLongYear, 4%nat)
      else Some (stdDay, 1%nat)
  | String "_" rest =>
      match rest with
      | String "2" rest' =>
          if String.prefix "006" rest' then None   (* a literal _ before 2006 *)
          else Some (stdUnderDay, 2%nat)
      | String "_" (String "2" _) => Some (stdUnderYearDay, 3%nat)
      | _ => None
      end
  | String "3" _ => Some (stdHour12, 1%nat)
  | String "4" _ => Some (stdMinute, 1%nat)
  | String "5" _ => Some (stdSecond, 1%nat)
  | String c rest =>
      if Ascii.eqb c "." || Ascii.eqb c "," then
        match rest with
        | String d _ =>
            if Ascii.eqb d "0" || Ascii.eqb d "9" then
              let n := run_length d rest in
              match char_at rest n with
              | Some e => if is_digit e then None
                          else Some (stdFracSecond (Ascii.eqb d "9") n c, S n)
              | None => Some (stdFracSecond (Ascii.eqb d "9") n c, S n)
              end
            else None
        | EmptyString => None
        end
      else None
  | EmptyString => None
  end.

(** [appendInt(b, x, width)]: the sign, then the digits padded with zeros. *)
Definition appendInt (x : Z) (width : nat) : string :=
  if x <? 0 then String "-" (zero_pad width (FormatUint (- x)))
  else zero_pad width (FormatUint x).

Fixpoint drop_zeros (cs : list ascii) : list ascii :=
  match cs with
  | c :: cs' => if Ascii.eqb c "0" then drop_zeros cs' else cs
  | [] => []
  end.

(** [appendNano]: the separator and the nanoseconds on nine digits, cut to
    [digits]; for a [.999] element the trailing zeros go, and the separator
    with them when nothing is left. *)
Definition appendNano (nanosec : Z) (nine : bool) (digits : nat) (sep : ascii) : string :=
  if nine && ((digits =? 0)%nat || (nanosec =? 0)) then EmptyString
  else
    let ds := take digits (list_ascii_of_string (appendInt nanosec 9)) in
    if nine then
      match drop_zeros (rev ds) with
      | [] => EmptyString
      | sd => string_of_list_ascii (sep :: rev sd)
      end
    else string_of_list_ascii (sep :: ds).

(** What [appendFormat] writes for one layout element. *)
Definition append_std (e : std) (t : Time) : string :=
  match e with
  | stdLongYear => appendInt (Time_Year t) 4
  | stdYear => appendInt (Z.abs (Time_Year t) mod 100) 2
  | stdNumMonth => appendInt (Time_Month t) 0
  | stdZeroMonth => appendInt (Time_Month t) 2
  | stdDay => appendInt (Time_Day t) 0
  | stdUnderDay =>
      (if Time_Day t <? 10 then " " else "") +:+ appendInt (Time_Day t) 0
  | stdZeroDay => appendInt (Time_Day t) 2
  | stdUnderYearDay =>
      (if Time_YearDay t <? 100 then
         if Time_YearDay t <? 10 then "  " else " "
       else "") +:+ appendInt (Time_YearDay t) 0
  | stdZeroYearDay => appendInt (Time_YearDay t) 3
  | stdHour => appendInt (Time_Hour t) 2
  | stdHour12 =>
      appendInt (if Time_Hour t mod 12 =? 0 then 12 else Time_Hour t mod 12) 0
  | stdZeroHour12 =>
      appendInt (if Time_Hour t mod 12 =? 0 then 12 else Time_Hour t mod 12) 2
  | stdMinute => appendInt (Time_Minute t) 0
  | stdZeroMinute => appendInt (Time_Minute t) 2
  | stdSecond => appendInt (Time_Second t) 0
  | stdZeroSecond => appendInt (Time_Second t) 2
  | stdFracSecond nine digits sep => appendNano (nanos t) nine digits sep
  end.

(** [Time.Format(layout)]: the layout is cut into literal text and elements
    from left to right; [skip] counts the characters of the current element
    that are still to pass. *)
Fixpoint Format_from (skip : nat) (layout : string) (t : Time) : string :=
  match layout with
  | EmptyString => EmptyString
  | String c rest =>
      match skip with
      | S k => Format_from k rest t
      | O =>
          match std_at layout with
          | Some (e, len) => append_std e t +:+ Format_from (len - 1) rest t
          | None => String c (Format_from 0 rest t)
          end
      end
  end.

Definition Time_Format (t : Time) (layout : string) : string := Format_from 0 layout t.

(** ** Timestamp *)

(** [var GPS = time.Date(1980, 1, 6, 0, 0, 0, 0, time.UTC)]. *)
Definition GPS : Time := time_Date 1980 1 6 0 0 0 0.

(** The conversion [time.Duration(t)] of a [uint64] to an [int64]: the bit
    pattern is kept, values from [2^63] on become negative. *)
Definition Duration_of_uint64 (t : Z) : Z :=
  if t <? 2 ^ 63 then t else t - 2 ^ 64.

(** [func (t Timestamp) Time() time.Time]. *)
Definition Timestamp_Time (t : Timestamp) : Time := Time_Add GPS (Duration_of_uint64 t).

(** [func (t Timestamp) String() string]. *)
Definition Timestamp_String (t : Timestamp) : string :=
  Time_Format (Timestamp_Time t) "2006-01-02T15:04:05.999999999Z".

(** ** encoding/xml, as the elements the encoder is asked to write *)

(** An element [<name>text</name>]. *)
Record xml_element : Type := { elem_name : string; elem_text : string }.

(** A root element with its attributes and its child elements. *)
Record xml_document : Type := {
  root_name  : string;
  root_attrs : list (string * string);
  root_elems : list xml_element
}.

(** A struct field as [encoding/xml] sees it: left out ([xml:"-"]), a plain
    value written under the name of its tag, or a value whose type has a
    [MarshalXML] method, which receives the start element named by the tag
    and writes what it likes. *)
Inductive xml_field : Type :=
| FieldSkip
| FieldUint (tag : string) (v : Z)
| FieldMarshaler (tag : string) (marshal : string -> xml_element).

Definition marshal_field (f : xml_field) : list xml_element :=
  match f with
  | FieldSkip => []
  | FieldUint tag v => [{| elem_name := tag; elem_text := FormatUint v |}]
  | FieldMarshaler tag marshal => [marshal tag]
  end.

(** [func (u UPI) MarshalXML(e *xml.Encoder, _ xml.StartElement) error]. *)
Definition UPI_MarshalXML (u : UPI) (_start : string) : xml_element :=
  {| elem_name := "upi"; elem_text := string_of_list_byte (bytes_Trim u x00) |}.

(** [func (t Timestamp) MarshalXML(e *xml.Encoder, _ xml.StartElement) error]. *)
Definition Timestamp_MarshalXML (t : Timestamp) (_start : string) : xml_element :=
  {| elem_name := "acquisition-time"; elem_text := Timestamp_String t |}.

(** [func (t Timestamp) MarshalXMLAttr(n xml.Name) (xml.Attr, error)]. *)
Definition Timestamp_MarshalXMLAttr (t : Timestamp) (n : string) : string * string :=
  (n, Timestamp_String t).

(** The fields of [Metadata] with their tags, in declaration order. *)
Definition Metadata_fields (info : Metadata) : list xml_field :=
  [ FieldSkip;
    FieldMarshaler "acquisition-time" (Timestamp_MarshalXML (Acquisition info));
    FieldUint "originator-seq-no" (Sequence info);
    FieldUint "auxiliary-time" (Auxiliary info);
    FieldUint "originator-id" (Source info);
    FieldUint "source-x-size" (X info);
    FieldUint "source-y-size" (Y info);
    FieldUint "format" (Format info);
    FieldUint "fdrp" (Drop info);
    FieldUint "roi-x-offset" (OffsetX info);
    FieldUint "roi-x-size" (SizeX info);
    FieldUint "roi-y-offset" (OffsetY info);
    FieldUint "roi-y-size" (SizeY info);
    FieldUint "scale-x-size" (ScaleX info);
    FieldUint "scale-y-size" (ScaleY info);
    FieldUint "scale-far" (Ratio info);
    FieldMarshaler "user-packet-info" (UPI_MarshalXML (Upi info)) ].

(** The value [elem] that [processMeta] encodes: the root is named by the
    tag of [XMLName], the three provenance fields are attributes, the
    embedded [Metadata] gives the child elements. *)
Definition metadata_document (when : Timestamp) (seq : Z) (source : string)
    (info : Metadata) : xml_document :=
  {| root_name := "metadata";
     root_attrs := [ Timestamp_MarshalXMLAttr when "svs-timestamp";
                     ("svs-sequence", FormatUint seq);
                     ("svs-file", filepath_Base source) ];
     root_elems := concat (map marshal_field (Metadata_fields info)) |}.

(** The text of the first child element called [name], if there is one. *)
Fixpoint child_text (name : string) (cs : list xml_element) : option string :=
  match cs with
  | c :: cs' => if (elem_name c =? name)%string then Some (elem_text c)
                else child_text name cs'
  | [] => None
  end.

(** ** encoding/csv: the writer *)

Definition dquote : ascii := "034"%char.
Definition comma : ascii := ","%char.
Definition LF : ascii := "010"%char.
Definition CR : ascii := "013"%char.

(** [unicode.IsSpace] of the first rune of [s], on its UTF-8 bytes. *)
Definition starts_with_space (s : string) : bool :=
  match map nat_of_ascii (list_ascii_of_string s) with
  | c :: rest =>
      if ((9 <=? c) && (c <=? 13) || (c =? 32))%nat then true
      else match c, rest with
           | 194%nat, c1 :: _ => ((c1 =? 133) || (c1 =? 160))%nat          (* U+0085, U+00A0 *)
           | 225%nat, c1 :: c2 :: _ => ((c1 =? 154) && (c2 =? 128))%nat    (* U+1680 *)
           | 226%nat, c1 :: c2 :: _ =>
               ((c1 =? 128) && ((128 <=? c2) && (c2 <=? 138)                (* U+2000..U+200A *)
                                || (c2 =? 168) || (c2 =? 169) || (c2 =? 175))
                || (c1 =? 129) && (c2 =? 159))%nat                          (* U+205F *)
           | 227%nat, c1 :: c2 :: _ => ((c1 =? 128) && (c2 =? 128))%nat    (* U+3000 *)
           | _, _ => false
           end
  | [] => false
  end.

Definition is_special (c : ascii) : bool :=
  Ascii.eqb c LF || Ascii.eqb c CR || Ascii.eqb c dquote || Ascii.eqb c comma.

(** [func (w *Writer) fieldNeedsQuotes(field string) bool] with the default
    comma. *)
Definition fieldNeedsQuotes (field : string) : bool :=
  if (field =? "")%string then false
  else if (field =? "\.")%string then true
  else if existsb is_special (list_ascii_of_string field) then true
  else starts_with_space field.

(** The inside of a quoted field: a quote is doubled, everything else is
    copied ([UseCRLF] is off). *)
Fixpoint quote_body (field : string) : string :=
  match field with
  | EmptyString => EmptyString
  | String c rest =>
      if Ascii.eqb c dquote then String dquote (String dquote (quote_body rest))
      else String c (quote_body rest)
  end.

Definition csv_field (field : string) : string :=
  if fieldNeedsQuotes field
  then String dquote (quote_body field +:+ String dquote EmptyString)
  else field.

Fixpoint csv_fields (record : list string) : string :=
  match record with
  | [] => EmptyString
  | [f] => csv_field f
  | f :: fs => csv_field f +:+ String comma (csv_fields fs)
  end.

(** What [func (w *Writer) Write(record []string) error] appends to the
    buffered output. *)
Definition csv_Write (record : list string) : string :=
  csv_fields record +:+ String LF EmptyString.

Definition csv_text (records : list (list string)) : string :=
  String.concat EmptyString (map csv_Write records).

(** The part of [text] that a [bufio.Writer] of 4096 bytes has passed on
    when nobody calls [Flush]: it empties its buffer only when the next
    write does not fit. *)
Definition bufio_passed_on (text : list byte) : list byte :=
  take (4096 * ((length text - 1) / 4096))%nat text.

(** ** The file system *)

Record FS : Type := {
  dirs  : gset string;
  files : gmap string (list byte)
}.

(** The root and the working directory exist; the other directories are the
    ones recorded. *)
Definition is_dir (fs : FS) (p : string) : bool :=
  (p =? "/")%string || (p =? ".")%string || bool_decide (p ∈ dirs fs).

Definition is_file (fs : FS) (p : string) : bool :=
  bool_decide (is_Some (files fs !! p)).

(** [os.Open] followed by the reads: the content of a regular file. *)
Definition os_Open (fs : FS) (p : string) : list byte + error :=
  match files fs !! p with
  | Some content => inl content
  | None => if is_dir fs p then inr (EISDIR p) else inr (ENOENT p)
  end.

(** [os.MkdirAll(p, 0755)] on a cleaned path: an error, and no change,
    when [p] or a directory above it is a regular file; otherwise [p] and
    the directories above it exist afterwards. *)
Definition os_MkdirAll (fs : FS) (p : string) : FS + error :=
  match List.find (is_file fs) (path_prefixes "" p) with
  | Some q => inr (ENOTDIR q)
  | None => inl {| dirs := dirs fs ∪ list_to_set (path_prefixes "" p); files := files fs |}
  end.

(** [os.Create(p)]: the file is created empty, or truncated. *)
Definition os_Create (fs : FS) (p : string) : FS + error :=
  if is_dir fs p then inr (EISDIR p)
  else if is_dir fs (filepath_Dir p) then
    inl {| dirs := dirs fs; files := <[p := []]> (files fs) |}
  else inr (ENOENT p).

(** The file [p], open for writing, receives [content]. *)
Definition write_file (fs : FS) (p : string) (content : list byte) : FS :=
  {| dirs := dirs fs; files := <[p := content]> (files fs) |}.

(** ** Results of running a function *)

(** A call returns, panics, or is still in its loop when the iterations
    granted to it are used up. *)
Inductive exec (A : Type) : Type :=
| Ret (a : A)
| Panic (msg : string)
| Running.
Arguments Ret {A} a.
Arguments Panic {A} msg.
Arguments Running {A}.

(** ** The program *)

Definition binary_Read_uint16 `{ByteOrder} (r : list byte) : (Z + error) * list byte :=
  match io_ReadFull 2 r with
  | (inl b, r') => (inl (Uint16 b), r')
  | (inr e, r') => (inr e, r')
  end.

(** [binary.Read] into a [float32]: the value is kept as its IEEE-754 bit
    pattern. *)
Definition binary_Read_float32 `{ByteOrder} (r : list byte) : (Z + error) * list byte :=
  match io_ReadFull 4 r with
  | (inl b, r') => (inl (Uint32 b), r')
  | (inr e, r') => (inr e, r')
  end.

Section Program.

(** [strconv.FormatFloat(float64(v), 'f', -1, 32)] as a function of the
    bits of the [float32] [v]. *)
Variable FormatFloat32 : Z -> string.

(** The bytes that [xml.Encoder.Encode], indenting with tabs, writes for a
    document. *)
Variable xml_Encode : xml_document -> list byte.

(** [func processIntro(r io.Reader, datadir, upi string) (string, error)] *)
Definition processIntro (r : list byte) (datadir upi : string) (fs : FS)
  : (string * option error) * FS :=
  let name := filepath_Join [datadir; upi +:+ ".ini"] in
  match os_Create fs name with
  | inr e => ((EmptyString, Some e), fs)
  | inl fs' => ((name, None), write_file fs' name r)
  end.

(** [func processMeta(r io.Reader, datadir, upi, source string, per int64,
    seq uint32, when Timestamp) (string, int64, error)]; the reader is
    returned as well.  Go's [/] on [int64] truncates and panics on a zero
    divisor. *)
Definition processMeta (r : list byte) (datadir upi source : string) (per : Z)
    (seq : Z) (when : Timestamp) (fs : FS)
  : exec ((string * Z * option error) * list byte * FS) :=
  match binary_Read_Metadata (H := LittleEndian) r with
  | (inr e, r') => Ret ((EmptyString, -1, Some e), r', fs)
  | (inl info, r') =>
      let acqt := Timestamp_Time (Acquisition info) in
      let file := Sprintf_0x 4 (Source info) +:+ "_" +:+ upi +:+ "_"
                  +:+ Time_Format acqt "20060102_150406" +:+ "_"
                  +:+ Sprintf_0d 6 (Sequence info) +:+ ".csv" in
      if per =? 0 then Panic "integer divide by zero"
      else
        let subdir := Z.quot (Sequence info) per in
        let datadir := filepath_Join [datadir; Sprintf_0d 6 subdir] in
        match os_MkdirAll fs datadir with
        | inr e => Ret ((EmptyString, subdir, Some e), r', fs)
        | inl fs1 =>
            let name := filepath_Join [datadir; file] +:+ ".xml" in
            match os_Create fs1 name with
            | inr e => Ret ((EmptyString, subdir, Some e), r', fs1)
            | inl fs2 =>
                let elem := metadata_document when seq source info in
                Ret ((file, subdir, None), r', write_file fs2 name (xml_Encode elem))
            end
        end
  end.

(** The first loop of [processData]: [n] scale words become the labels
    of the header. *)
Fixpoint read_labels (n : nat) (rs : list byte) : (list string + error) * list byte :=
  match n with
  | O => (inl [], rs)
  | S n' =>
      match binary_Read_uint16 (H := LittleEndian) rs with
      | (inr e, rs') => (inr e, rs')
      | (inl v, rs') =>
          match read_labels n' rs' with
          | (inl ls, rs'') => (inl (("g2(t, " +:+ FormatUint v +:+ ")") :: ls), rs'')
          | (inr e, rs'') => (inr e, rs'')
          end
      end
  end.

(** The inner loop: [n] values of one row. *)
Fixpoint read_values (n : nat) (rs : list byte) : (list string + error) * list byte :=
  match n with
  | O => (inl [], rs)
  | S n' =>
      match binary_Read_float32 (H := LittleEndian) rs with
      | (inr e, rs') => (inr e, rs')
      | (inl v, rs') =>
          match read_values n' rs' with
          | (inl vs, rs'') => (inl (FormatFloat32 v :: vs), rs'')
          | (inr e, rs'') => (inr e, rs'')
          end
      end
  end.

(** The loop [for i := 0; rs.Len() > 0; i++]: every iteration uses up one
    unit of [fuel].  [out] collects the records given to the CSV writer;
    the result is the error returned from inside the loop, if any.  The
    counter [i] is an [int]; when the loop ends it has counted at most the
    bytes of the block, so its wrap-around is not written out. *)
Fixpoint sample_rows (fuel : nat) (n : nat) (i : Z) (rs : list byte)
    (out : list (list string)) : exec (option error * list (list string)) :=
  match fuel with
  | O => Running
  | S fuel' =>
      if (0 <? length rs)%nat then
        match read_values n rs with
        | (inr e, _) => Ret (Some e, out)
        | (inl vs, rs') => sample_rows fuel' n (i + 1) rs' (out ++ [Itoa i :: vs])
        end
      else Ret (None, out)
  end.

(** [func processData(r io.Reader, file string) error]. *)
Definition processData (fuel : nat) (r : list byte) (file : string) (fs : FS)
  : exec (option error * FS) :=
  match os_Create fs file with
  | inr e => Ret (Some e, fs)
  | inl fs1 =>
      match r with
      | [] => Ret (Some EOF, fs1)
      | b :: rs =>
          let n := Z.to_nat (u8 b) in
          match read_labels n rs with
          | (inr e, _) => Ret (Some e, fs1)
          | (inl labels, rs1) =>
              match sample_rows fuel n 0 rs1 [("t" : string) :: labels] with
              | Ret (Some e, out) =>
                  Ret (Some e, write_file fs1 file
                                 (bufio_passed_on (list_byte_of_string (csv_text out))))
              | Ret (None, out) =>
                  Ret (None, write_file fs1 file (list_byte_of_string (csv_text out)))
              | Panic msg => Panic msg
              | Running => Running
              end
          end
      end
  end.

(** The identifier that [processFile] takes from the name of the file:
    [strings.Join(parts[1:len(parts)-5], "_")], which panics when the
    bounds of the slice expression are out of order. *)
Definition identifier (file : string) : option string :=
  let parts := strings_Split (filepath_Base file) "_" in
  match slice_expr parts 1 (Z.of_nat (length parts) - 5) with
  | Some middle => Some (strings_Join middle "_")
  | None => None
  end.

(** [func processFile(file, datadir string, per int64) (string, error)] *)
Definition processFile (fuel : nat) (fs : FS) (file datadir : string) (per : Z)
  : exec ((string * option error) * FS) :=
  match os_Open fs file with
  | inr e => Ret ((EmptyString, Some e), fs)
  | inl r =>
      match binary_Read_envelope (H := BigEndian) r with
      | (inr e, _) => Ret ((EmptyString, Some e), fs)
      | (inl meta, r1) =>
          if negb (bytes_Equal (FCC meta) (list_byte_of_string magic))
          then Ret ((EmptyString, None), fs)
          else
            match identifier file with
            | None => Panic "slice bounds out of range"
            | Some upi =>
                let datadir := filepath_Join [datadir; upi] in
                match os_MkdirAll fs datadir with
                | inr e => Ret ((EmptyString, Some e), fs)
                | inl fs1 =>
                    if Seq meta =? 1 then Ret (processIntro r1 datadir upi fs1)
                    else
                      match processMeta r1 datadir upi file per (Seq meta) (When meta) fs1 with
                      | Ret ((file', _, Some e), _, fs2) => Ret ((file', Some e), fs2)
                      | Ret ((file', per', None), r2, fs2) =>
                          let file'' := filepath_Join [datadir; Sprintf_0d 6 per'; file'] in
                          match processData fuel r2 file'' fs2 with
                          | Ret (err, fs3) => Ret ((file'', err), fs3)
                          | Panic msg => Panic msg
                          | Running => Running
                          end
                      | Panic msg => Panic msg
                      | Running => Running
                      end
                end
            end
      end
  end.

End Program.

(** The values of [n] little-endian words of 32 bits at the head of [bs]. *)
Fixpoint words32 (n : nat) (bs : list byte) : list Z :=
  match n with
  | O => []
  | S n' => le_value (take 4 bs) :: words32 n' (drop 4 bs)
  end.

(** The values of [n] little-endian words of 16 bits at the head of [bs]. *)
Fixpoint words16 (n : nat) (bs : list byte) : list Z :=
  match n with
  | O => []
  | S n' => le_value (take 2 bs) :: words16 n' (drop 2 bs)
  end.

(** The records of [rows] complete rows of [n] values found in [body],
    numbered from [i], with the values rendered by [render]. *)
Fixpoint row_records (render : Z -> string) (n : nat) (i : Z) (rows : nat)
    (body : list byte) : list (list string) :=
  match rows with
  | O => []
  | S rows' =>
      (Itoa i :: map render (words32 n body))
        :: row_records render n (i + 1) rows' (drop (4 * n) body)
  end.

(** The header record for [n] scale words. *)
Definition header_record (n : nat) (scales : list byte) : list string :=
  ("t" : string) :: map (fun v => "g2(t, " +:+ FormatUint v +:+ ")") (words16 n scales).

(** The defaults that [main] puts in the place of values that are not
    positive. *)
Definition effective_per (per : Z) : Z := if per <=? 0 then DefaultFiles else per.
Definition effective_workers (workers : Z) : Z :=
  if workers <=? 0 then DefaultWorkers else workers.

(** ** The runner of [main] *)

(** What a call of [processFile] gave to the goroutine that made it. *)
Inductive outcome : Type :=
| Produced (file : string)   (* a path and no error: logged *)
| Skipped                    (* an empty path and no error: silent *)
| Failed (e : error).        (* an error: logged *)

(** A goroutine started by [main]: inside [processFile], or back from it
    with the deferred [sema.Release(1)] still to run. *)
Inductive worker : Type :=
| Busy (f : string)
| Finished (f : string) (o : outcome).

(** Where [main] stands: at the head of the [for ... range] loop, in
    [sema.Acquire(ctx, 1)], at the [go] statement, in the final
    [sema.Acquire(ctx, *workers)], or past it. *)
Inductive main_pc : Type :=
| Receiving
| Acquiring (f : string)
| Starting (f : string)
| Draining
| Returned.

Record run_state : Type := {
  queue : list string;   (* the paths still to come out of the channel *)
  pc    : main_pc;
  cur   : Z;             (* the units of the semaphore that are held *)
  pool  : list worker;
  fid   : Z
}.

(** The process is running, or a panic in a goroutine has ended it. *)
Inductive process : Type :=
| Live (s : run_state)
| Dead.

(** [semaphore.Weighted.Acquire(ctx, n)] with a context that is never
    cancelled and [main] as the only caller: it goes through when [n] units
    are free and waits otherwise. *)
Definition sema_Acquire (size cur n : Z) : option Z :=
  if n <=? size - cur then Some (cur + n) else None.

(** [semaphore.Weighted.Release(n)]; releasing more than is held panics. *)
Definition sema_Release (cur n : Z) : option Z :=
  if cur - n <? 0 then None else Some (cur - n).

Definition initial (files : list string) : process :=
  Live {| queue := files; pc := Receiving; cur := 0; pool := []; fid := 0 |}.

(** One step of [main] or of one goroutine, for a semaphore of [size]
    units. *)
Inductive step (size : Z) : process -> process -> Prop :=
| step_receive f q c p i :
    step size (Live {| queue := f :: q; pc := Receiving; cur := c; pool := p; fid := i |})
              (Live {| queue := q; pc := Acquiring f; cur := c; pool := p; fid := i |})
| step_closed c p i :
    step size (Live {| queue := []; pc := Receiving; cur := c; pool := p; fid := i |})
              (Live {| queue := []; pc := Draining; cur := c; pool := p; fid := i |})
| step_acquire f q c c' p i :
    sema_Acquire size c 1 = Some c' ->
    step size (Live {| queue := q; pc := Acquiring f; cur := c; pool := p; fid := i |})
              (Live {| queue := q; pc := Starting f; cur := c'; pool := p; fid := i |})
| step_go f q c p i :
    step size (Live {| queue := q; pc := Starting f; cur := c; pool := p; fid := i |})
              (Live {| queue := q; pc := Receiving; cur := c; pool := Busy f :: p; fid := i + 1 |})
| step_return f o q m c p1 p2 i :
    step size (Live {| queue := q; pc := m; cur := c; pool := p1 ++ Busy f :: p2; fid := i |})
              (Live {| queue := q; pc := m; cur := c; pool := p1 ++ Finished f o :: p2; fid := i |})
| step_panic f q m c p1 p2 i :
    step size (Live {| queue := q; pc := m; cur := c; pool := p1 ++ Busy f :: p2; fid := i |})
              Dead
| step_release f o q m c c' p1 p2 i :
    sema_Release c 1 = Some c' ->
    step size (Live {| queue := q; pc := m; cur := c; pool := p1 ++ Finished f o :: p2; fid := i |})
              (Live {| queue := q; pc := m; cur := c'; pool := p1 ++ p2; fid := i |})
| step_release_panic f o q m c p1 p2 i :
    sema_Release c 1 = None ->
    step size (Live {| queue := q; pc := m; cur := c; pool := p1 ++ Finished f o :: p2; fid := i |})
              Dead
| step_drain q c c' p i :
    sema_Acquire size c size = Some c' ->
    step size (Live {| queue := q; pc := Draining; cur := c; pool := p; fid := i |})
              (Live {| queue := q; pc := Returned; cur := c'; pool := p; fid := i |}).

(** The states that a run on [files] with the flag [-w workers] can be in. *)
Inductive reachable (files : list string) (workers : Z) : process -> Prop :=
| reach_initial : reachable files workers (initial files)
| reach_step s s' :
    reachable files workers s ->
    step (effective_workers workers) s s' ->
    reachable files workers s'.

Definition is_busy (w : worker) : bool :=
  match w with Busy _ => true | Finished _ _ => false end.

(** The number of file pipelines that are running. *)
Definition running (s : run_state) : Z := Z.of_nat (length (filter is_busy (pool s))).

(** The units that [main] holds itself: one between [Acquire] and [go], all
    of them once the final [Acquire] has gone through. *)
Definition held_by_main (size : Z) (m : main_pc) : Z :=
  match m with
  | Starting _ => 1
  | Returned => size
  | _ => 0
  end.

(** What holds of every state of a run: the units held are those of the
    goroutines that have not released theirs yet plus those that [main]
    holds, they never exceed the size of the semaphore, and [main] is past
    its loop only when the channel is empty. *)
Definition run_invariant (size : Z) (p : process) : Prop :=
  match p with
  | Dead => True
  | Live s =>
      cur s = Z.of_nat (length (pool s)) + held_by_main size (pc s) /\
      cur s <= size /\
      (pc s = Draining \/ pc s = Returned -> queue s = [])
  end.

(** ** Further definitions: byte order, extensions, the input paths *)

(** The value of a big-endian field: the first byte weighs most. *)
Definition be_value (bs : list byte) : Z := le_value (rev bs).

Fixpoint ext_scan (rev_path : list ascii) (acc : list ascii) : list ascii :=
  match rev_path with
  | [] => []
  | c :: cs =>
      if Ascii.eqb c slash then []
      else if Ascii.eqb c "."%char then c :: acc
      else ext_scan cs (c :: acc)
  end.

(** [filepath.Ext]: the suffix that starts at the last dot of the last
    element of the path, empty when that element has no dot. *)
Definition filepath_Ext (path : string) : string :=
  string_of_list_ascii (ext_scan (rev (list_ascii_of_string path)) []).

(** One call that [filepath.Walk] makes to the function it is given: the
    path, whether it is a directory, and the error that [Walk] met there. *)
Record walk_entry : Type := {
  entry_path   : string;
  entry_is_dir : bool;
  entry_err    : option error
}.

(** The function literal that [readFiles] and [walkFiles] give to
    [filepath.Walk]: what it sends to the channel and what it returns. *)
Definition walk_fn (keepbad : bool) (e : walk_entry) : list string * option error :=
  match entry_err e with
  | Some err => ([], Some err)
  | None =>
      if entry_is_dir e then ([], None)
      else if (filepath_Ext (entry_path e) =? bad)%string && negb keepbad then ([], None)
      else ([entry_path e], None)
  end.

(** [filepath.Walk] on the calls it would make: it goes on for as long as
    the function returns nil and stops at the first error returned (the
    function here never returns [SkipDir]).  The result is what was sent to
    the channel; the callers drop the error of [Walk]. *)
Fixpoint filepath_Walk (fn : walk_entry -> list string * option error)
    (entries : list walk_entry) : list string :=
  match entries with
  | [] => []
  | e :: es =>
      match fn e with
      | (sent, Some _) => sent
      | (sent, None) => sent ++ filepath_Walk fn es
      end
  end.

Section Paths.

(** The calls that [filepath.Walk] makes for a root on the file system at
    hand, in its lexical order, were the function to return nil always. *)
Variable Walk_entries : string -> list walk_entry.

(** [func walkFiles(files []string, keepbad bool) <-chan string]: the
    paths that come out of the channel, in order. *)
Fixpoint walkFiles (files : list string) (keepbad : bool) : list string :=
  match files with
  | [] => []
  | f :: fs => filepath_Walk (walk_fn keepbad) (Walk_entries f) ++ walkFiles fs keepbad
  end.

(** [func readFiles(keepbad bool) <-chan string] on the lines that the
    scanner reads from the standard input. *)
Fixpoint readFiles (stdin : list string) (keepbad : bool) : list string :=
  match stdin with
  | [] => []
  | f :: fs =>
      if (f =? "")%string then readFiles fs keepbad
      else filepath_Walk (walk_fn keepbad) (Walk_entries f) ++ readFiles fs keepbad
  end.

(** [func iterFiles(files []string, keepbad bool) <-chan string]. *)
Definition iterFiles (files stdin : list string) (keepbad : bool) : list string :=
  match files with
  | [] => readFiles stdin keepbad
  | _ => walkFiles files keepbad
  end.

End Paths.


(** The paths that [main] has taken from the channel without having
    started their goroutines yet. *)
Definition in_admission (m : main_pc) : Z :=
  match m with
  | Acquiring _ | Starting _ => 1
  | _ => 0
  end.

(** The label of a column in the header, for its scale word. *)
Definition column_label (v : Z) : string := "g2(t, " +:+ FormatUint v +:+ ")".

(** A file system that has everything another one has: its directories
    and its files, whatever their content. *)
Definition fs_grows (fs fs' : FS) : Prop :=
  dirs fs ⊆ dirs fs' /\ forall p, is_Some (files fs !! p) -> is_Some (files fs' !! p).

(** ** Sample inputs *)

(** Bytes given by their values. *)
Definition bytes_of (l : list Z) : list byte :=
  map (fun z => match Byte.of_N (Z.to_N z) with Some b => b | None => x00 end) l.

(** An envelope with sequence counter 2 and timestamp 9. *)
Definition sample_envelope : list byte :=
  list_byte_of_string "SVS " ++ bytes_of [0; 0; 0; 2] ++ bytes_of [0; 0; 0; 0; 0; 0; 0; 9].

(** A metadata record: magic byte 7, acquisition 56 s after the epoch
    (56000000000 = 0x0D09DC3000 ticks), originator sequence 7, originator
    0x0A, identifier FOO, every other field zero. *)
Definition sample_metadata : list byte :=
  bytes_of [7] ++ bytes_of [0; 48; 220; 9; 13; 0; 0; 0] ++ bytes_of [7; 0; 0; 0]
    ++ replicate 8 x00 ++ bytes_of [10] ++ replicate 20 x00
    ++ list_byte_of_string "FOO" ++ replicate 29 x00.

(** A sample block: two columns with scales 5 and 9, one row 1.5, -2.25. *)
Definition sample_block : list byte :=
  bytes_of [2; 5; 0; 9; 0; 0; 0; 192; 63; 0; 0; 16; 192].

Definition sample_file : list byte := sample_envelope ++ sample_metadata ++ sample_block.

Definition sample_path : string := "/in/0033_FOO_1_000002_20180114_212000_0.dat".

Definition sample_fs : FS :=
  {| dirs := {[ "/in"; "/out" ]}; files := {[ sample_path := sample_file ]} |}.

(** Stand-ins for the two library functions that the program is
    parameterised by, for running it on the samples: the float is printed
    as the decimal value of its bit pattern, the document as the name of
    its root followed by the names of its elements. *)
Definition sample_FormatFloat32 (bits : Z) : string := FormatUint bits.

Definition sample_xml_Encode (d : xml_document) : list byte :=
  list_byte_of_string
    (strings_Join (root_name d :: map elem_name (root_elems d)) " ").

(** The sample record with originator sequence 1025 in the place of 7. *)
Definition sample_metadata_1025 : list byte :=
  take 9 sample_metadata ++ bytes_of [1; 4; 0; 0] ++ drop 13 sample_metadata.

Definition sample_fs_1025 : FS :=
  {| dirs := {[ "/in"; "/out" ]};
     files := {[ sample_path := sample_envelope ++ sample_metadata_1025 ++ sample_block ]} |}.

(** A file system in which the sample content is stored under names that
    do not follow the naming convention, next to two files that are not SVS
    files, one of 4 and one of 22 bytes, and in which the place of the per-identifier
    directory of [/in/x_FOO_1_2_3_4_5.dat] is taken by a regular file. *)
Definition sample_fs_odd : FS :=
  {| dirs := {[ "/in"; "/out" ]};
     files := {[ "/in/a_b_c.dat" := sample_file;
                 "/in/0033_FOO_000002_20180114_212000.dat" := sample_file;
                 "/in/x_FOO_1_2_3_4_5.dat" := sample_file;
                 "/in/tiny" := list_byte_of_string "ABCD";
                 "/in/notes.txt" := list_byte_of_string "not an SVS file at all";
                 "/out/FOO" := [] ]} |}.

(** An introductory record: sequence counter 1, then the text to copy. *)
Definition sample_intro : list byte :=
  list_byte_of_string "SVS " ++ bytes_of [0; 0; 0; 1] ++ bytes_of [0; 0; 0; 0; 0; 0; 0; 9]
    ++ list_byte_of_string "[columns] a, b".

Definition sample_fs_intro : FS :=
  {| dirs := {[ "/in"; "/out" ]}; files := {[ sample_path := sample_intro ]} |}.

(** A directory tree as [filepath.Walk] visits it. *)
Definition sample_walk (root : string) : list walk_entry :=
  if (root =? "/in")%string then
    [ {| entry_path := "/in"; entry_is_dir := true; entry_err := None |};
      {| entry_path := "/in/a.dat"; entry_is_dir := false; entry_err := None |};
      {| entry_path := "/in/b.bad"; entry_is_dir := false; entry_err := None |};
      {| entry_path := "/in/sub"; entry_is_dir := true; entry_err := None |};
      {| entry_path := "/in/sub/c.dat"; entry_is_dir := false; entry_err := None |} ]
  else [ {| entry_path := root; entry_is_dir := false; entry_err := Some (ENOENT root) |} ].

(** A state of a run on two paths with the default four workers: the first
    path has been skipped by its goroutine, which still holds its unit. *)
Definition sample_run_state : run_state :=
  {| queue := ["b"]; pc := Receiving; cur := 1; pool := [Finished "a" Skipped]; fid := 1 |}.

(** Whether a path starts at the root. *)
Definition is_rooted (path : string) : bool :=
  match path with String c _ => Ascii.eqb c slash | EmptyString => false end.

(** The path that [filepath.Clean] makes of the elements it has kept. *)
Definition clean_path (rooted : bool) (kept : list string) : string :=
  match (if rooted then "/" else "") +:+ strings_Join (rev kept) "/" with
  | EmptyString => "."
  | p => p
  end.

(** * Properties *)

(** ** Integers from bytes *)

Lemma u8_range (b : byte) : 0 <= u8 b < 256.
Proof.
  unfold u8. pose proof (Byte.to_N_bounded b). lia.
Qed.

Lemma land_below_shifted (a b n : Z) :
  0 <= n -> 0 <= a < 2 ^ n -> Z.land a (b * 2 ^ n) = 0.
Proof.
  intros Hn Ha.
  apply Z.bits_inj'. intros k Hk. rewrite Z.land_spec, Z.bits_0.
  destruct (Z.lt_ge_cases k n) as [Hlt | Hge].
  - rewrite Z.mul_pow2_bits_low by lia. apply andb_false_r.
  - assert (Z.testbit a k = false) as ->; [|reflexivity].
    destruct (Z.eq_dec a 0) as [-> | Hne]; [apply Z.bits_0|].
    apply Z.bits_above_log2; [lia|].
    apply Z.lt_le_trans with n; [|lia].
    apply Z.log2_lt_pow2; lia.
Qed.

Lemma lor_shiftl_add (a b n : Z) :
  0 <= n -> 0 <= a < 2 ^ n -> Z.lor a (Z.shiftl b n) = a + b * 2 ^ n.
Proof.
  intros Hn Ha.
  rewrite Z.shiftl_mul_pow2 by lia.
  rewrite <- Z.lxor_lor by (apply land_below_shifted; lia).
  symmetry. apply Z.add_nocarry_lxor, land_below_shifted; lia.
Qed.

Ltac byte_bounds :=
  repeat match goal with
         | |- context [u8 ?b] =>
             lazymatch goal with
             | _ : 0 <= u8 b < 256 |- _ => fail
             | _ => pose proof (u8_range b)
             end
         end.

Lemma LittleEndian_Uint16_value (b : list byte) :
  (2 <= length b)%nat -> Uint16 (ByteOrder := LittleEndian) b = le_value (take 2 b).
Proof.
  destruct b as [|b0 [|b1 t]]; simpl; try lia. intros _.
  unfold byte_at; simpl. byte_bounds.
  rewrite lor_shiftl_add by lia. lia.
Qed.

Lemma LittleEndian_Uint32_value (b : list byte) :
  (4 <= length b)%nat -> Uint32 (ByteOrder := LittleEndian) b = le_value (take 4 b).
Proof.
  destruct b as [|b0 [|b1 [|b2 [|b3 t]]]]; simpl; try lia. intros _.
  unfold byte_at; simpl. byte_bounds.
  rewrite (lor_shiftl_add _ _ 8) by lia.
  rewrite (lor_shiftl_add _ _ 16) by lia.
  rewrite (lor_shiftl_add _ _ 24) by lia. lia.
Qed.

Lemma LittleEndian_Uint64_value (b : list byte) :
  (8 <= length b)%nat -> Uint64 (ByteOrder := LittleEndian) b = le_value (take 8 b).
Proof.
  destruct b as [|b0 [|b1 [|b2 [|b3 [|b4 [|b5 [|b6 [|b7 t]]]]]]]]; simpl; try lia.
  intros _. unfold byte_at; simpl. byte_bounds.
  rewrite (lor_shiftl_add _ _ 8) by lia.
  rewrite (lor_shiftl_add _ _ 16) by lia.
  rewrite (lor_shiftl_add _ _ 24) by lia.
  rewrite (lor_shiftl_add _ _ 32) by lia.
  rewrite (lor_shiftl_add _ _ 40) by lia.
  rewrite (lor_shiftl_add _ _ 48) by lia.
  rewrite (lor_shiftl_add _ _ 56) by lia. lia.
Qed.

Lemma byte_at_value (b : list byte) :
  (1 <= length b)%nat -> byte_at b 0 = le_value (take 1 b).
Proof.
  destruct b as [|b0 t]; simpl; try lia. intros _. unfold byte_at; simpl. lia.
Qed.

Lemma le_value_range (bs : list byte) : 0 <= le_value bs < 256 ^ Z.of_nat (length bs).
Proof.
  induction bs as [|b bs IH]; simpl le_value; simpl length; [lia|].
  pose proof (u8_range b).
  rewrite Nat2Z.inj_succ, Z.pow_succ_r by lia. lia.
Qed.

(** ** The wire layout of the envelope and of the metadata record *)

Lemma field_of_take (off n m : nat) (r : list byte) :
  (off + n <= m)%nat -> take n (drop off (take m r)) = field off n r.
Proof.
  intros Hle. unfold field.
  rewrite !take_drop_commute, take_take. f_equal. f_equal. lia.
Qed.

Lemma io_ReadFull_enough (n : nat) (r : list byte) :
  (n <= length r)%nat -> io_ReadFull n r = (inl (take n r), drop n r).
Proof.
  intros Hle. unfold io_ReadFull.
  destruct n as [|n]; [reflexivity|].
  destruct r as [|b r]; [simpl in Hle; lia|].
  destruct (Nat.ltb_spec (length (b :: r)) (S n)); [lia | reflexivity].
Qed.

Lemma io_ReadFull_short (n : nat) (r : list byte) :
  (length r < n)%nat ->
  io_ReadFull n r = (inr (match r with [] => EOF | _ => ErrUnexpectedEOF end), []).
Proof.
  intros Hlt. unfold io_ReadFull.
  destruct n as [|n]; [lia|].
  destruct r as [|b r]; [reflexivity|].
  destruct (Nat.ltb_spec (length (b :: r)) (S n)); [reflexivity | lia].
Qed.

(** The fields that the decoder finds in a buffer of the size of the
    record. *)
Lemma dec_Metadata_fields (buf : list byte) :
  length buf = Metadata_size ->
  let info := fst (dec_Metadata (H := LittleEndian) buf) in
  Magic info = le_value (field 0 1 buf) /\
  Acquisition info = le_value (field 1 8 buf) /\
  Sequence info = le_value (field 9 4 buf) /\
  Auxiliary info = le_value (field 13 8 buf) /\
  Source info = le_value (field 21 1 buf) /\
  X info = le_value (field 22 2 buf) /\
  Y info = le_value (field 24 2 buf) /\
  Format info = le_value (field 26 1 buf) /\
  Drop info = le_value (field 27 2 buf) /\
  OffsetX info = le_value (field 29 2 buf) /\
  SizeX info = le_value (field 31 2 buf) /\
  OffsetY info = le_value (field 33 2 buf) /\
  SizeY info = le_value (field 35 2 buf) /\
  ScaleX info = le_value (field 37 2 buf) /\
  ScaleY info = le_value (field 39 2 buf) /\
  Ratio info = le_value (field 41 1 buf) /\
  Upi info = field 42 32 buf.
Proof.
  intros Hlen. unfold Metadata_size in Hlen. simpl in Hlen.
  unfold dec_Metadata, dec_bind, dec_ret, dec_uint8, dec_uint16, dec_uint32,
    dec_uint64, dec_bytes, field.
  cbn [fst Magic Acquisition Sequence Auxiliary Source X Y Format Drop OffsetX
       SizeX OffsetY SizeY ScaleX ScaleY Ratio Upi].
  rewrite !drop_drop. cbn [Nat.add].
  repeat split;
    first [ reflexivity
          | apply byte_at_value; rewrite ?length_drop; lia
          | apply LittleEndian_Uint16_value; rewrite ?length_drop; lia
          | apply LittleEndian_Uint32_value; rewrite ?length_drop; lia
          | apply LittleEndian_Uint64_value; rewrite ?length_drop; lia ].
Qed.

Lemma binary_Read_envelope_enough (c : list byte) :
  (envelope_size <= length c)%nat ->
  exists meta,
    binary_Read_envelope (H := BigEndian) c = (inl meta, drop envelope_size c) /\
    FCC meta = take 4 c.
Proof.
  intros Hlen. unfold binary_Read_envelope.
  rewrite io_ReadFull_enough by exact Hlen.
  eexists. split; [reflexivity|].
  unfold dec_envelope, dec_bind, dec_ret, dec_bytes, envelope_size. cbn [fst FCC].
  rewrite take_take. f_equal.
Qed.

Lemma binary_Read_Metadata_enough (r : list byte) :
  (Metadata_size <= length r)%nat ->
  binary_Read_Metadata (H := LittleEndian) r
  = (inl (fst (dec_Metadata (H := LittleEndian) (take Metadata_size r))),
     drop Metadata_size r).
Proof.
  intros Hlen. unfold binary_Read_Metadata.
  now rewrite io_ReadFull_enough by exact Hlen.
Qed.

Lemma binary_Read_Metadata_short (r : list byte) :
  (length r < Metadata_size)%nat ->
  binary_Read_Metadata (H := LittleEndian) r
  = (inr (match r with [] => EOF | _ => ErrUnexpectedEOF end), []).
Proof.
  intros Hlt. unfold binary_Read_Metadata.
  now rewrite io_ReadFull_short by exact Hlt.
Qed.

(** C1, as the code has it: in a file of at least 16 + 74 bytes the envelope
    takes the first 16 bytes and the metadata record the 74 bytes after
    them; the record is read little-endian, field after field without gaps,
    and starts with a one-byte magic field at offset 0, so that the
    acquisition timestamp is the 64-bit field at offset 1, followed by
    originator-seq-no (u32), auxiliary-time (u64), originator-id (u8),
    source-x-size, source-y-size (u16), format (u8), fdrp, roi-x-offset,
    roi-x-size, roi-y-offset, roi-y-size, scale-x-size, scale-y-size (u16),
    scale-far (u8) and the 32 bytes of user-packet-info; the reader is left
    just behind the record. *)
Theorem Metadata_wire_layout (c : list byte) :
  (envelope_size + Metadata_size <= length c)%nat ->
  exists (meta : envelope) (info : Metadata),
    binary_Read_envelope (H := BigEndian) c = (inl meta, drop 16 c) /\
    binary_Read_Metadata (H := LittleEndian) (drop 16 c) = (inl info, drop 74 (drop 16 c)) /\
    Magic info = le_value (field 0 1 (drop 16 c)) /\
    Acquisition info = le_value (field 1 8 (drop 16 c)) /\
    Sequence info = le_value (field 9 4 (drop 16 c)) /\
    Auxiliary info = le_value (field 13 8 (drop 16 c)) /\
    Source info = le_value (field 21 1 (drop 16 c)) /\
    X info = le_value (field 22 2 (drop 16 c)) /\
    Y info = le_value (field 24 2 (drop 16 c)) /\
    Format info = le_value (field 26 1 (drop 16 c)) /\
    Drop info = le_value (field 27 2 (drop 16 c)) /\
    OffsetX info = le_value (field 29 2 (drop 16 c)) /\
    SizeX info = le_value (field 31 2 (drop 16 c)) /\
    OffsetY info = le_value (field 33 2 (drop 16 c)) /\
    SizeY info = le_value (field 35 2 (drop 16 c)) /\
    ScaleX info = le_value (field 37 2 (drop 16 c)) /\
    ScaleY info = le_value (field 39 2 (drop 16 c)) /\
    Ratio info = le_value (field 41 1 (drop 16 c)) /\
    Upi info = field 42 32 (drop 16 c).
Proof.
  intros Hlen. unfold envelope_size, Metadata_size in Hlen. simpl in Hlen.
  destruct (binary_Read_envelope_enough c) as (meta & Henv & _);
    [unfold envelope_size; simpl; lia|].
  exists meta. eexists. split; [exact Henv|].
  assert (Hrec : (Metadata_size <= length (drop 16 c))%nat)
    by (rewrite length_drop; unfold Metadata_size; simpl; lia).
  split; [apply (binary_Read_Metadata_enough _ Hrec)|].
  pose proof (dec_Metadata_fields (take Metadata_size (drop 16 c))) as Hf.
  cbv zeta in Hf.
  unfold field in *.
  rewrite !(field_of_take _ _ Metadata_size) in Hf
    by (unfold Metadata_size; simpl; lia).
  unfold field in Hf.
  apply Hf. rewrite length_take. lia.
Qed.

Lemma Metadata_wire_layout_witness :
  exists (meta : envelope) (info : Metadata),
    binary_Read_envelope (H := BigEndian) sample_file = (inl meta, drop 16 sample_file) /\
    binary_Read_Metadata (H := LittleEndian) (drop 16 sample_file)
    = (inl info, drop 74 (drop 16 sample_file)) /\
    Magic info = le_value (field 0 1 (drop 16 sample_file)) /\
    Acquisition info = le_value (field 1 8 (drop 16 sample_file)) /\
    Sequence info = le_value (field 9 4 (drop 16 sample_file)) /\
    Auxiliary info = le_value (field 13 8 (drop 16 sample_file)) /\
    Source info = le_value (field 21 1 (drop 16 sample_file)) /\
    X info = le_value (field 22 2 (drop 16 sample_file)) /\
    Y info = le_value (field 24 2 (drop 16 sample_file)) /\
    Format info = le_value (field 26 1 (drop 16 sample_file)) /\
    Drop info = le_value (field 27 2 (drop 16 sample_file)) /\
    OffsetX info = le_value (field 29 2 (drop 16 sample_file)) /\
    SizeX info = le_value (field 31 2 (drop 16 sample_file)) /\
    OffsetY info = le_value (field 33 2 (drop 16 sample_file)) /\
    SizeY info = le_value (field 35 2 (drop 16 sample_file)) /\
    ScaleX info = le_value (field 37 2 (drop 16 sample_file)) /\
    ScaleY info = le_value (field 39 2 (drop 16 sample_file)) /\
    Ratio info = le_value (field 41 1 (drop 16 sample_file)) /\
    Upi info = field 42 32 (drop 16 sample_file).
Proof.
  apply (Metadata_wire_layout sample_file). vm_compute. lia.
Defined.

(** C1 as it is worded fails: a record of the 73 bytes that the listed
    fields add up to is refused as truncated, and in a record of 74 bytes
    the acquisition timestamp is not the value of the first 8 bytes. *)
Lemma Metadata_claimed_layout_refuted :
  binary_Read_Metadata (H := LittleEndian) (take 73 sample_metadata)
    = (inr ErrUnexpectedEOF, []) /\
  (exists info,
     binary_Read_Metadata (H := LittleEndian) sample_metadata = (inl info, []) /\
     Magic info = 7 /\
     Acquisition info = 56000000000 /\
     Acquisition info <> le_value (field 0 8 sample_metadata)).
Proof.
  split; [reflexivity|].
  eexists. split; [reflexivity|].
  split; [reflexivity|]. split; [reflexivity|].
  vm_compute. discriminate.
Qed.

(** ** Strings *)

Lemma append_cons (x : ascii) (a b : string) : String x a +:+ b = String x (a +:+ b).
Proof. reflexivity. Qed.

Lemma append_empty_l (b : string) : EmptyString +:+ b = b.
Proof. reflexivity. Qed.

Lemma append_assoc (a b c : string) : (a +:+ b) +:+ c = a +:+ (b +:+ c).
Proof.
  induction a as [|x a IH]; [reflexivity|].
  rewrite !append_cons. now f_equal.
Qed.

Lemma append_empty_r (a : string) : a +:+ EmptyString = a.
Proof.
  induction a as [|x a IH]; [reflexivity|].
  rewrite append_cons. now f_equal.
Qed.

Lemma length_append (a b : string) :
  String.length (a +:+ b) = (String.length a + String.length b)%nat.
Proof.
  induction a as [|x a IH]; [reflexivity|].
  rewrite append_cons. simpl. now f_equal.
Qed.

Lemma list_ascii_of_append (a b : string) :
  list_ascii_of_string (a +:+ b) = list_ascii_of_string a ++ list_ascii_of_string b.
Proof.
  induction a as [|x a IH]; [reflexivity|].
  rewrite append_cons. simpl. now f_equal.
Qed.

Lemma length_list_ascii (a : string) : length (list_ascii_of_string a) = String.length a.
Proof. induction a as [|x a IH]; simpl; [reflexivity | now f_equal]. Qed.

(** ** The derived file name *)

(** The elements that [Format] finds in the layout of the file name: after
    the hour and the minute comes ["06"], the year on two digits, where the
    layout of [Timestamp.String] has ["05"], the second. *)
Lemma compact_layout_elements (t : Time) :
  Time_Format t "20060102_150406"
  = appendInt (Time_Year t) 4 +:+ appendInt (Time_Month t) 2
      +:+ appendInt (Time_Day t) 2 +:+ "_"
      +:+ appendInt (Time_Hour t) 2 +:+ appendInt (Time_Minute t) 2
      +:+ appendInt (Z.abs (Time_Year t) mod 100) 2.
Proof.
  unfold Time_Format. cbn -[append_std String.append].
  cbn [append_std]. now rewrite append_empty_r.
Qed.

(** C2, evaluated on the sample record (originator 0x0A, identifier FOO,
    originator sequence 7, acquisition 1980-01-06T00:00:56Z): the name that
    [processMeta] returns ends its time stamp with the year 80, not with
    the second 56, and the metadata file is that name with .xml appended. *)
Theorem derived_filename_at_sample :
  Timestamp_String 56000000000 = "1980-01-06T00:00:56Z" /\
  exists fs',
    processMeta sample_xml_Encode (sample_metadata ++ sample_block) "/out/FOO" "FOO"
      sample_path 512 2 9 sample_fs
    = Ret (("000a_FOO_19800106_000080_000007.csv", 0, None), sample_block, fs') /\
    is_file fs' "/out/FOO/000000/000a_FOO_19800106_000080_000007.csv.xml" = true.
Proof.
  split; [reflexivity|].
  eexists. split; [vm_compute; reflexivity|].
  vm_compute. reflexivity.
Qed.

(** ** The metadata document *)

(** C7, on the code: whatever the record, the document that [processMeta]
    encodes has no element called user-packet-info; the identifier, trimmed
    of its NUL bytes, is written under the name upi that [UPI.MarshalXML]
    chooses, the tag of the field notwithstanding.  The other fields stand
    under the names of their tags, the acquisition time in its precise
    form, and the provenance is in the attributes of the root. *)
Theorem metadata_document_elements (when : Timestamp) (seq : Z) (source : string)
    (info : Metadata) :
  let doc := metadata_document when seq source info in
  child_text "user-packet-info" (root_elems doc) = None /\
  child_text "upi" (root_elems doc)
    = Some (string_of_list_byte (bytes_Trim (Upi info) x00)) /\
  child_text "acquisition-time" (root_elems doc)
    = Some (Timestamp_String (Acquisition info)) /\
  map elem_name (root_elems doc)
    = [ "acquisition-time"; "originator-seq-no"; "auxiliary-time"; "originator-id";
        "source-x-size"; "source-y-size"; "format"; "fdrp"; "roi-x-offset";
        "roi-x-size"; "roi-y-offset"; "roi-y-size"; "scale-x-size"; "scale-y-size";
        "scale-far"; "upi" ] /\
  root_attrs doc
    = [ ("svs-timestamp", Timestamp_String when);
        ("svs-sequence", FormatUint seq);
        ("svs-file", filepath_Base source) ].
Proof.
  repeat split; reflexivity.
Qed.

(** The document of the sample record, whose identifier is FOO. *)
Lemma metadata_document_at_sample :
  exists info,
    binary_Read_Metadata (H := LittleEndian) sample_metadata = (inl info, []) /\
    root_elems (metadata_document 9 2 sample_path info)
    = [ {| elem_name := "acquisition-time"; elem_text := "1980-01-06T00:00:56Z" |};
        {| elem_name := "originator-seq-no"; elem_text := "7" |};
        {| elem_name := "auxiliary-time"; elem_text := "0" |};
        {| elem_name := "originator-id"; elem_text := "10" |};
        {| elem_name := "source-x-size"; elem_text := "0" |};
        {| elem_name := "source-y-size"; elem_text := "0" |};
        {| elem_name := "format"; elem_text := "0" |};
        {| elem_name := "fdrp"; elem_text := "0" |};
        {| elem_name := "roi-x-offset"; elem_text := "0" |};
        {| elem_name := "roi-x-size"; elem_text := "0" |};
        {| elem_name := "roi-y-offset"; elem_text := "0" |};
        {| elem_name := "roi-y-size"; elem_text := "0" |};
        {| elem_name := "scale-x-size"; elem_text := "0" |};
        {| elem_name := "scale-y-size"; elem_text := "0" |};
        {| elem_name := "scale-far"; elem_text := "0" |};
        {| elem_name := "upi"; elem_text := "FOO" |} ].
Proof.
  eexists. split; [reflexivity|]. vm_compute. reflexivity.
Qed.

(** ** The file system *)

Lemma path_prefixes_self (pre p : string) : In (pre +:+ p) (path_prefixes pre p).
Proof.
  revert pre. induction p as [|c p IH]; intros pre; simpl.
  - left. now rewrite append_empty_r.
  - apply in_or_app. right.
    specialize (IH (pre +:+ String c EmptyString)).
    now rewrite append_assoc in IH.
Qed.

Lemma is_dir_recorded (fs : FS) (p : string) : p ∈ dirs fs -> is_dir fs p = true.
Proof.
  intros Hin. unfold is_dir. rewrite (bool_decide_eq_true_2 _ Hin).
  now rewrite orb_true_r.
Qed.

Lemma is_dir_mono (fs fs' : FS) (p : string) :
  dirs fs ⊆ dirs fs' -> is_dir fs p = true -> is_dir fs' p = true.
Proof.
  unfold is_dir. intros Hsub H.
  apply orb_true_iff in H as [H | H]; [now rewrite H|].
  apply bool_decide_eq_true_1 in H.
  rewrite (bool_decide_eq_true_2 (p ∈ dirs fs')); [apply orb_true_r | now apply Hsub].
Qed.

Lemma os_MkdirAll_spec (fs fs' : FS) (p : string) :
  os_MkdirAll fs p = inl fs' ->
  is_dir fs' p = true /\ dirs fs ⊆ dirs fs' /\ files fs' = files fs.
Proof.
  unfold os_MkdirAll. destruct (List.find _ _); [discriminate|].
  intros [= <-]. simpl. repeat split.
  - apply is_dir_recorded. simpl. apply elem_of_union_r, elem_of_list_to_set.
    apply list_elem_of_In. exact (path_prefixes_self EmptyString p).
  - apply union_subseteq_l.
Qed.

Lemma os_MkdirAll_error (fs : FS) (p : string) (e : error) :
  os_MkdirAll fs p = inr e -> exists q, e = ENOTDIR q /\ is_file fs q = true.
Proof.
  unfold os_MkdirAll. destruct (List.find _ _) as [q|] eqn:Hfind; [|discriminate].
  intros [= <-]. exists q. split; [reflexivity|].
  now apply List.find_some in Hfind.
Qed.

Lemma os_Create_spec (fs fs' : FS) (p : string) :
  os_Create fs p = inl fs' ->
  dirs fs' = dirs fs /\ files fs' = <[p := []]> (files fs).
Proof.
  unfold os_Create. destruct (is_dir fs p); [discriminate|].
  destruct (is_dir fs (filepath_Dir p)); [|discriminate].
  now intros [= <-].
Qed.

Lemma is_file_write (fs : FS) (p : string) (content : list byte) :
  is_file (write_file fs p content) p = true.
Proof.
  unfold is_file, write_file. simpl. apply bool_decide_eq_true_2.
  rewrite lookup_insert_eq. eauto.
Qed.

(** ** What the decoder of the record returns *)

Lemma binary_Read_Metadata_inv (r r' : list byte) (info : Metadata) :
  binary_Read_Metadata (H := LittleEndian) r = (inl info, r') ->
  (Metadata_size <= length r)%nat /\ r' = drop Metadata_size r /\
  info = fst (dec_Metadata (H := LittleEndian) (take Metadata_size r)).
Proof.
  intros Hread.
  destruct (Nat.le_gt_cases Metadata_size (length r)) as [Hle | Hgt].
  - rewrite binary_Read_Metadata_enough in Hread by exact Hle.
    injection Hread as <- <-. auto.
  - rewrite binary_Read_Metadata_short in Hread by exact Hgt. discriminate.
Qed.

Lemma Sequence_range (r r' : list byte) (info : Metadata) :
  binary_Read_Metadata (H := LittleEndian) r = (inl info, r') ->
  0 <= Sequence info < 2 ^ 32.
Proof.
  intros Hread. apply binary_Read_Metadata_inv in Hread as (Hlen & _ & ->).
  destruct (dec_Metadata_fields (take Metadata_size r)) as (_ & _ & -> & _).
  { rewrite length_take. lia. }
  pose proof (le_value_range (field 9 4 (take Metadata_size r))) as Hr.
  assert (length (field 9 4 (take Metadata_size r)) = 4%nat) as Hl.
  { unfold field. rewrite length_take, length_drop, length_take.
    change Metadata_size with 74%nat in *. lia. }
  rewrite Hl in Hr. exact Hr.
Qed.

Lemma Source_range (r r' : list byte) (info : Metadata) :
  binary_Read_Metadata (H := LittleEndian) r = (inl info, r') ->
  0 <= Source info < 256.
Proof.
  intros Hread. apply binary_Read_Metadata_inv in Hread as (Hlen & _ & ->).
  destruct (dec_Metadata_fields (take Metadata_size r)) as (_ & _ & _ & _ & -> & _).
  { rewrite length_take. lia. }
  pose proof (le_value_range (field 21 1 (take Metadata_size r))) as Hr.
  assert (length (field 21 1 (take Metadata_size r)) = 1%nat) as Hl.
  { unfold field. rewrite length_take, length_drop, length_take.
    change Metadata_size with 74%nat in *. lia. }
  rewrite Hl in Hr. exact Hr.
Qed.

(** ** Splitting and joining *)

Lemma strings_Split_not_nil (s : string) (sep : ascii) : strings_Split s sep <> [].
Proof.
  destruct s as [|c s]; simpl; [discriminate|].
  destruct (Ascii.eqb c sep); [discriminate|].
  destruct (strings_Split s sep); discriminate.
Qed.

(** Joining the segments with the separator gives the string back. *)
Lemma strings_Join_Split (s : string) (sep : ascii) :
  strings_Join (strings_Split s sep) (String sep EmptyString) = s.
Proof.
  induction s as [|c s IH]; [reflexivity|].
  simpl strings_Split.
  pose proof (strings_Split_not_nil s sep) as Hne.
  destruct (Ascii.eqb_spec c sep) as [-> | Hc].
  - destruct (strings_Split s sep) as [|h t]; [congruence|].
    change (strings_Join (EmptyString :: h :: t) (String sep EmptyString))
      with (EmptyString +:+ String sep EmptyString +:+ strings_Join (h :: t) (String sep EmptyString)).
    now rewrite IH.
  - destruct (strings_Split s sep) as [|h t]; [congruence|].
    rewrite <- IH. destruct t as [|h' t]; reflexivity.
Qed.

(** No segment contains the separator. *)
Lemma strings_Split_segments (s : string) (sep : ascii) :
  Forall (fun seg => ~ In sep (list_ascii_of_string seg)) (strings_Split s sep).
Proof.
  induction s as [|c s IH]; simpl.
  - constructor; [simpl; tauto | constructor].
  - destruct (Ascii.eqb_spec c sep) as [-> | Hc].
    + constructor; [simpl; tauto | exact IH].
    + destruct (strings_Split s sep) as [|h t]; [constructor; [|constructor]|].
      * simpl. intros [? | []]. congruence.
      * inversion IH as [|? ? Hh Ht]; subst. constructor; [|exact Ht].
        simpl. intros [? | ?]; [congruence | contradiction].
Qed.

Lemma bytes_Equal_eq (a b : list byte) : bytes_Equal a b = true <-> a = b.
Proof.
  revert b. induction a as [|x a IH]; intros [|y b]; simpl; split;
    try congruence; try reflexivity.
  - intros H. apply andb_true_iff in H as [Hxy Hab].
    apply Byte.byte_dec_bl in Hxy. apply IH in Hab. congruence.
  - intros [= -> ->]. apply andb_true_iff. split; [now apply Byte.byte_dec_lb | now apply IH].
Qed.

Lemma slice_expr_middle {A} (first : A) (middle last : list A) :
  slice_expr (first :: middle ++ last) 1
    (Z.of_nat (length (first :: middle ++ last)) - Z.of_nat (length last))
  = Some middle.
Proof.
  unfold slice_expr. simpl length. rewrite length_app.
  destruct (0 <=? 1) eqn:H0; [|discriminate]. simpl andb.
  destruct (Z.leb_spec 1 (Z.of_nat (S (length middle + length last)) - Z.of_nat (length last)));
    [|lia].
  destruct (Z.leb_spec (Z.of_nat (S (length middle + length last)) - Z.of_nat (length last))
                       (Z.of_nat (S (length middle + length last)))); [|lia].
  simpl andb. cbv iota. f_equal.
  replace (Z.to_nat (Z.of_nat (S (length middle + length last)) - Z.of_nat (length last) - 1))
    with (length middle) by lia.
  change (Z.to_nat 1) with 1%nat.
  change (drop 1 (first :: middle ++ last)) with (middle ++ last).
  apply take_app_length.
Qed.

Section ProgramProperties.

Variable FormatFloat32 : Z -> string.
Variable xml_Encode : xml_document -> list byte.

(** ** The name that [processMeta] derives *)

(** An originator identifier is one byte, so [%04x] gives exactly four
    characters for it. *)
Lemma Sprintf_0x_byte (b : byte) : String.length (Sprintf_0x 4 (u8 b)) = 4%nat.
Proof. destruct b; reflexivity. Qed.

(** Whenever [processMeta] returns without error, the name it returns is
    made of the originator identifier on four hexadecimal digits, the
    identifier, the date, the hour, the minute and the year on two digits,
    and the originator sequence number padded to six digits, with the
    extension of the data file; the metadata file has been created under
    that name with .xml appended. *)
Lemma processMeta_filename (r r' : list byte) (datadir upi source file : string)
    (per seq subdir : Z) (when : Timestamp) (fs fs' : FS) :
  processMeta xml_Encode r datadir upi source per seq when fs
  = Ret ((file, subdir, None), r', fs') ->
  exists info,
    binary_Read_Metadata (H := LittleEndian) r = (inl info, r') /\
    file = Sprintf_0x 4 (Source info) +:+ "_" +:+ upi +:+ "_"
           +:+ (appendInt (Time_Year (Timestamp_Time (Acquisition info))) 4
                +:+ appendInt (Time_Month (Timestamp_Time (Acquisition info))) 2
                +:+ appendInt (Time_Day (Timestamp_Time (Acquisition info))) 2 +:+ "_"
                +:+ appendInt (Time_Hour (Timestamp_Time (Acquisition info))) 2
                +:+ appendInt (Time_Minute (Timestamp_Time (Acquisition info))) 2
                +:+ appendInt (Z.abs (Time_Year (Timestamp_Time (Acquisition info))) mod 100) 2)
           +:+ "_" +:+ Sprintf_0d 6 (Sequence info) +:+ ".csv" /\
    is_file fs' (filepath_Join [filepath_Join [datadir; Sprintf_0d 6 subdir]; file] +:+ ".xml")
    = true.
Proof.
  unfold processMeta.
  destruct (binary_Read_Metadata r) as [[info | e] r0] eqn:Hread; [|discriminate].
  destruct (per =? 0); [discriminate|].
  destruct (os_MkdirAll fs _) as [fs1 | e]; [|discriminate].
  destruct (os_Create fs1 _) as [fs2 | e]; [|discriminate].
  intros [= <- <- <- <-]. exists info. split; [reflexivity|].
  rewrite compact_layout_elements. split; [reflexivity|].
  apply is_file_write.
Qed.

(** ** The shard directory *)

(** C3, as the code has it: for a data record whose metadata decode to
    [info] and a shard size [per > 0], the index that [processMeta]
    returns is the originator sequence number of the metadata (not the
    sequence counter [seq] of the envelope) divided by [per], rounded
    down; the directory it creates is named by that index padded with
    zeros to 6 digits, and the metadata file is created inside it. *)
Theorem shard_index (r r' : list byte) (datadir upi source : string)
    (per seq : Z) (when : Timestamp) (fs : FS) (info : Metadata) :
  0 < per ->
  binary_Read_Metadata (H := LittleEndian) r = (inl info, r') ->
  let index := Sequence info / per in
  let shard := filepath_Join [datadir; Sprintf_0d 6 index] in
  Sprintf_0d 6 index = zero_pad 6 (FormatUint index) /\
  exists file err fs',
    processMeta xml_Encode r datadir upi source per seq when fs
    = Ret ((file, index, err), r', fs') /\
    (err = None ->
     is_dir fs' shard = true /\
     is_file fs' (filepath_Join [shard; file] +:+ ".xml") = true).
Proof.
  intros Hper Hread index shard.
  pose proof (Sequence_range _ _ _ Hread) as Hseq.
  assert (Hidx : 0 <= index) by (apply Z.div_pos; lia).
  split.
  { unfold Sprintf_0d. destruct (Z.ltb_spec index 0); [lia | reflexivity]. }
  unfold processMeta. rewrite Hread.
  destruct (Z.eqb_spec per 0) as [? | _]; [lia|].
  rewrite Z.quot_div_nonneg by lia. fold index. fold shard.
  destruct (os_MkdirAll fs shard) as [fs1 | e] eqn:Hmk.
  - destruct (os_Create fs1 _) as [fs2 | e] eqn:Hcr.
    + do 3 eexists. split; [reflexivity|]. intros _.
      apply os_MkdirAll_spec in Hmk as (Hdir & _ & _).
      apply os_Create_spec in Hcr as (Hdirs & _).
      split; [|apply is_file_write].
      unfold is_dir in *. simpl. now rewrite Hdirs.
    + do 3 eexists. split; [reflexivity|]. discriminate.
  - do 3 eexists. split; [reflexivity|]. discriminate.
Qed.

(** ** What the functions do to the directories *)

Lemma processIntro_dirs (r : list byte) (datadir upi : string) (fs fs' : FS)
    (res : string * option error) :
  processIntro r datadir upi fs = (res, fs') -> dirs fs ⊆ dirs fs'.
Proof.
  unfold processIntro. destruct (os_Create fs _) as [fs1 | e] eqn:Hcr.
  - apply os_Create_spec in Hcr as (Hd & _). intros [= _ <-]. simpl. now rewrite Hd.
  - now intros [= _ <-].
Qed.

Lemma processMeta_dirs (r r' : list byte) (datadir upi source : string) (per seq : Z)
    (when : Timestamp) (fs fs' : FS) (res : string * Z * option error) :
  processMeta xml_Encode r datadir upi source per seq when fs = Ret (res, r', fs') ->
  dirs fs ⊆ dirs fs'.
Proof.
  unfold processMeta. destruct (binary_Read_Metadata r) as [[info | e] r0].
  - destruct (per =? 0); [discriminate|].
    destruct (os_MkdirAll fs _) as [fs1 | e] eqn:Hmk.
    + apply os_MkdirAll_spec in Hmk as (_ & Hsub & _).
      destruct (os_Create fs1 _) as [fs2 | e] eqn:Hcr.
      * apply os_Create_spec in Hcr as (Hd & _). intros [= _ _ <-]. simpl. now rewrite Hd.
      * now intros [= _ _ <-].
    + now intros [= _ _ <-].
  - now intros [= _ _ <-].
Qed.

Lemma sample_rows_no_panic (fuel n : nat) (i : Z) (rs : list byte)
    (out : list (list string)) (msg : string) :
  sample_rows FormatFloat32 fuel n i rs out <> Panic msg.
Proof.
  revert i rs out. induction fuel as [|fuel IH]; intros i rs out; simpl; [discriminate|].
  destruct (0 <? length rs)%nat; [|discriminate].
  destruct (read_values FormatFloat32 n rs) as [[vs | e] rs']; [apply IH | discriminate].
Qed.

Lemma processData_no_panic (fuel : nat) (r : list byte) (file : string) (fs : FS)
    (msg : string) :
  processData FormatFloat32 fuel r file fs <> Panic msg.
Proof.
  unfold processData. destruct (os_Create fs file) as [fs1 | e]; [|discriminate].
  destruct r as [|b rs]; [discriminate|].
  destruct (read_labels _ rs) as [[labels | e] rs1]; [|discriminate].
  destruct (sample_rows _ _ _ _ _ _) as [[[e|] out] | msg' |] eqn:Hrows;
    try discriminate.
  now apply sample_rows_no_panic in Hrows.
Qed.

Lemma processData_dirs (fuel : nat) (r : list byte) (file : string) (fs fs' : FS)
    (err : option error) :
  processData FormatFloat32 fuel r file fs = Ret (err, fs') -> dirs fs ⊆ dirs fs'.
Proof.
  unfold processData. destruct (os_Create fs file) as [fs1 | e] eqn:Hcr.
  - apply os_Create_spec in Hcr as (Hd & _).
    destruct r as [|b rs]; [intros [= _ <-]; now rewrite Hd|].
    destruct (read_labels _ rs) as [[labels | e] rs1]; [|intros [= _ <-]; now rewrite Hd].
    destruct (sample_rows _ _ _ _ _ _) as [[[e|] out] | msg' |]; try discriminate;
      intros [= _ <-]; simpl; now rewrite Hd.
  - now intros [= _ <-].
Qed.

Lemma processMeta_no_panic (r : list byte) (datadir upi source : string) (per seq : Z)
    (when : Timestamp) (fs : FS) (msg : string) :
  per <> 0 -> processMeta xml_Encode r datadir upi source per seq when fs <> Panic msg.
Proof.
  intros Hper. unfold processMeta.
  destruct (binary_Read_Metadata r) as [[info | e] r0]; [|discriminate].
  destruct (Z.eqb_spec per 0); [contradiction|].
  destruct (os_MkdirAll fs _) as [fs1 | e]; [|discriminate].
  destruct (os_Create fs1 _); discriminate.
Qed.

(** ** The identifier *)

(** C4, as the code has it: when the base name of the file has at least six
    segments between underscores, that is a first segment, middle segments
    and five last segments, the identifier is the middle segments joined by
    underscores (the empty string when there are none), and [processFile],
    called with a positive shard size, does not panic. *)
Theorem identifier_of_conventional_name (file first : string) (middle last5 : list string) :
  strings_Split (filepath_Base file) "_" = first :: middle ++ last5 ->
  length last5 = 5%nat ->
  identifier file = Some (strings_Join middle "_") /\
  (middle = [] -> identifier file = Some EmptyString) /\
  forall fuel fs datadir per msg,
    0 < per ->
    processFile FormatFloat32 xml_Encode fuel fs file datadir per <> Panic msg.
Proof.
  intros Hsplit Hlast.
  assert (Hid : identifier file = Some (strings_Join middle "_")).
  { unfold identifier. rewrite Hsplit.
    pose proof (slice_expr_middle first middle last5) as Hs.
    rewrite Hlast in Hs. change (Z.of_nat 5) with 5 in Hs. now rewrite Hs. }
  split; [exact Hid|]. split; [intros ->; exact Hid|].
  intros fuel fs datadir per msg Hper. unfold processFile.
  destruct (os_Open fs file) as [r | e]; [|discriminate].
  destruct (binary_Read_envelope r) as [[meta | e] r1]; [|discriminate].
  destruct (negb _); [discriminate|].
  rewrite Hid.
  destruct (os_MkdirAll fs _) as [fs1 | e]; [|discriminate].
  destruct (Seq meta =? 1); [discriminate|].
  destruct (processMeta _ _ _ _ _ _ _ _ _) as [[[[[f p] [e|]] r2] fs2] | msg' |] eqn:Hmeta;
    try discriminate.
  - destruct (processData _ _ _ _ _) as [[err fs3] | msg' |] eqn:Hdata; try discriminate.
    now apply processData_no_panic in Hdata.
  - apply processMeta_no_panic in Hmeta; [contradiction | lia].
Qed.

(** ** Files that are not recognised *)

(** C5, as the code has it: a file that can be opened, holds at least the
    16 bytes of an envelope and does not start with the four bytes "SVS "
    makes [processFile] return the empty path and no error, and leaves the
    file system as it was. *)
Theorem unrecognized_file_skipped (fuel : nat) (fs : FS) (file datadir : string)
    (per : Z) (content : list byte) :
  files fs !! file = Some content ->
  (envelope_size <= length content)%nat ->
  take 4 content <> list_byte_of_string magic ->
  processFile FormatFloat32 xml_Encode fuel fs file datadir per
  = Ret ((EmptyString, None), fs).
Proof.
  intros Hfile Hlen Htag. unfold processFile, os_Open. rewrite Hfile.
  destruct (binary_Read_envelope_enough content Hlen) as (meta & -> & Hfcc).
  destruct (bytes_Equal (FCC meta) (list_byte_of_string magic)) eqn:Heq; [|reflexivity].
  apply bytes_Equal_eq in Heq. congruence.
Qed.

(** ** The directory of the identifier *)

(** C10, as the code has it: for a recognised file whose name gives an
    identifier, [processFile] first makes sure of the directory of the
    identifier under the destination root.  If that fails, the error is
    returned and nothing has changed.  Otherwise the directory exists from
    then on, whatever [processFile] returns; and when the record is a data
    record whose metadata cannot be decoded, that error is returned with an
    empty path and nothing but this directory (and the directories above
    it) has been created. *)
Theorem identifier_directory_created (fuel : nat) (fs : FS) (file datadir : string)
    (per : Z) (content r1 : list byte) (meta : envelope) (upi : string) :
  os_Open fs file = inl content ->
  binary_Read_envelope (H := BigEndian) content = (inl meta, r1) ->
  FCC meta = list_byte_of_string magic ->
  identifier file = Some upi ->
  match os_MkdirAll fs (filepath_Join [datadir; upi]) with
  | inr e =>
      processFile FormatFloat32 xml_Encode fuel fs file datadir per
      = Ret ((EmptyString, Some e), fs)
  | inl fs1 =>
      is_dir fs1 (filepath_Join [datadir; upi]) = true /\
      forall res fs',
        processFile FormatFloat32 xml_Encode fuel fs file datadir per = Ret (res, fs') ->
        is_dir fs' (filepath_Join [datadir; upi]) = true /\
        (Seq meta <> 1 ->
         forall e r2,
           binary_Read_Metadata (H := LittleEndian) r1 = (inr e, r2) ->
           res = (EmptyString, Some e) /\ fs' = fs1)
  end.
Proof.
  intros Hopen Henv Hfcc Hid. unfold processFile.
  rewrite Hopen, Henv, Hid.
  apply bytes_Equal_eq in Hfcc. rewrite Hfcc. cbn [negb].
  destruct (os_MkdirAll fs _) as [fs1 | e] eqn:Hmk; [|reflexivity].
  apply os_MkdirAll_spec in Hmk as (Hdir & _ & _).
  split; [exact Hdir|]. intros res fs'.
  destruct (Z.eqb_spec (Seq meta) 1) as [Hone | Hdata].
  - intros [= Hintro]. split; [|contradiction].
    destruct (processIntro r1 _ upi fs1) as [res0 fs0] eqn:Hi.
    injection Hintro as <- <-.
    eapply is_dir_mono; [eapply processIntro_dirs; exact Hi | exact Hdir].
  - destruct (processMeta _ _ _ _ _ _ _ _ _) as [[[[[f p] [e|]] r2] fs2] | msg' |] eqn:Hmeta;
      try discriminate.
    + intros [= <- <-]. split.
      * eapply is_dir_mono; [eapply processMeta_dirs; exact Hmeta | exact Hdir].
      * intros _ e' r2' Hread. unfold processMeta in Hmeta. rewrite Hread in Hmeta.
        now injection Hmeta as <- _ <- _ <-.
    + destruct (processData _ _ _ _ _) as [[err fs3] | msg' |] eqn:Hdat; try discriminate.
      intros [= <- <-]. split.
      * eapply is_dir_mono; [eapply processData_dirs; exact Hdat|].
        eapply is_dir_mono; [eapply processMeta_dirs; exact Hmeta | exact Hdir].
      * intros _ e' r2' Hread. unfold processMeta in Hmeta. rewrite Hread in Hmeta.
        discriminate.
Qed.

(** ** The loops of the sample-block encoder *)

Lemma binary_Read_float32_cases (rs : list byte) :
  (4 <= length rs)%nat /\
    binary_Read_float32 (H := LittleEndian) rs
    = (inl (Uint32 (ByteOrder := LittleEndian) (take 4 rs)), drop 4 rs)
  \/
  (length rs < 4)%nat /\
    exists e, binary_Read_float32 (H := LittleEndian) rs = (inr e, [])
              /\ (e = EOF \/ e = ErrUnexpectedEOF).
Proof.
  unfold binary_Read_float32.
  destruct (Nat.le_gt_cases 4 (length rs)) as [Hle | Hgt].
  - left. split; [exact Hle|]. now rewrite io_ReadFull_enough.
  - right. split; [exact Hgt|]. rewrite io_ReadFull_short by exact Hgt.
    eexists. split; [reflexivity|]. destruct rs; auto.
Qed.

(** One pass of the inner loop either reads [n] values, taking exactly
    [4 * n] bytes, or stops on a read error. *)
Lemma read_values_consumes (n : nat) (rs : list byte) :
  match read_values FormatFloat32 n rs with
  | (inl vs, rs') => length vs = n /\ length rs = (4 * n + length rs')%nat
  | (inr e, _) => (length rs < 4 * n)%nat /\ (e = EOF \/ e = ErrUnexpectedEOF)
  end.
Proof.
  revert rs. induction n as [|n IH]; intros rs; [simpl; lia|].
  cbn [read_values].
  destruct (binary_Read_float32_cases rs) as [(Hlen & ->) | (Hlen & e & -> & He)].
  - specialize (IH (drop 4 rs)).
    destruct (read_values FormatFloat32 n (drop 4 rs)) as [[vs | e] rs'].
    + rewrite length_drop in IH. simpl. lia.
    + rewrite length_drop in IH. split; [lia | tauto].
  - split; [lia | exact He].
Qed.

Lemma sample_rows_terminates (n : nat) :
  (1 <= n)%nat ->
  forall (k : nat) (rs : list byte) (i : Z) (out : list (list string)),
    (length rs <= k)%nat ->
    exists res, forall fuel,
      (length rs < fuel)%nat -> sample_rows FormatFloat32 fuel n i rs out = Ret res.
Proof.
  intros Hn. induction k as [|k IH]; intros rs i out Hk.
  - destruct rs; [|simpl in Hk; lia].
    exists (None, out). intros [|fuel] Hf; [simpl in Hf; lia | reflexivity].
  - destruct rs as [|b rs]; [exists (None, out); intros [|fuel] Hf; [simpl in Hf; lia | reflexivity]|].
    pose proof (read_values_consumes n (b :: rs)) as Hc.
    destruct (read_values FormatFloat32 n (b :: rs)) as [[vs | e] rs'] eqn:Hread.
    + destruct Hc as (_ & Hlen).
      destruct (IH rs' (i + 1) (out ++ [Itoa i :: vs])) as (res & Hres); [simpl in *; lia|].
      exists res. intros [|fuel] Hf; [lia|].
      cbn [sample_rows]. change (0 <? length (b :: rs))%nat with true. cbv iota.
      rewrite Hread. apply Hres. simpl in *. lia.
    + exists (Some e, out). intros [|fuel] Hf; [lia|].
      cbn [sample_rows]. change (0 <? length (b :: rs))%nat with true. cbv iota.
      now rewrite Hread.
Qed.

(** C9: when the column count [N], the first byte of the block, is at least
    1, [processData] returns: there is a result that every run with more
    iterations than bytes in the block arrives at.  A pass of the row loop
    reads [N] values and takes exactly [4 * N] bytes, or ends the function
    with a read error. *)
Theorem processData_terminates (b : byte) (rs : list byte) (file : string) (fs : FS) :
  1 <= u8 b ->
  (exists res, forall fuel,
      (length rs < fuel)%nat ->
      processData FormatFloat32 fuel (b :: rs) file fs = Ret res) /\
  (forall rs0,
      match read_values FormatFloat32 (Z.to_nat (u8 b)) rs0 with
      | (inl vs, rs') =>
          (0 < 4 * Z.to_nat (u8 b))%nat /\
          length rs0 = (4 * Z.to_nat (u8 b) + length rs')%nat
      | (inr e, _) => e = EOF \/ e = ErrUnexpectedEOF
      end).
Proof.
  intros Hn. split.
  - unfold processData.
    destruct (os_Create fs file) as [fs1 | e]; [|eexists; reflexivity].
    destruct (read_labels (Z.to_nat (u8 b)) rs) as [[labels | e] rs1] eqn:Hlab;
      [|eexists; reflexivity].
    assert (Hlen : (length rs1 <= length rs)%nat).
    { clear - Hlab. revert rs labels rs1 Hlab.
      induction (Z.to_nat (u8 b)) as [|n IH]; intros rs labels rs1; simpl.
      - intros [= _ <-]. lia.
      - unfold binary_Read_uint16.
        destruct (Nat.le_gt_cases 2 (length rs)) as [Hle | Hgt].
        + rewrite io_ReadFull_enough by exact Hle.
          destruct (read_labels n (drop 2 rs)) as [[ls | e] rs''] eqn:Hrec; [|discriminate].
          intros [= _ <-]. apply IH in Hrec. rewrite length_drop in Hrec. lia.
        + rewrite io_ReadFull_short by exact Hgt. discriminate. }
    destruct (sample_rows_terminates (Z.to_nat (u8 b)) ltac:(lia) (length rs1) rs1 0
                [("t" : string) :: labels] (le_n _)) as ([err out] & Hres).
    destruct err as [e|].
    + eexists. intros fuel Hf. rewrite Hres by lia. reflexivity.
    + eexists. intros fuel Hf. rewrite Hres by lia. reflexivity.
  - intros rs0. pose proof (read_values_consumes (Z.to_nat (u8 b)) rs0) as Hc.
    destruct (read_values FormatFloat32 (Z.to_nat (u8 b)) rs0) as [[vs | e] rs'].
    + split; [lia | tauto].
    + tauto.
Qed.

(** Without a column the row loop reads nothing: while bytes remain it
    never ends, however many iterations it is granted. *)
Lemma sample_rows_zero_columns (fuel : nat) (i : Z) (rs : list byte)
    (out : list (list string)) :
  rs <> [] -> sample_rows FormatFloat32 fuel 0 i rs out = Running.
Proof.
  intros Hne. revert i out. induction fuel as [|fuel IH]; intros i out; [reflexivity|].
  cbn [sample_rows read_values].
  destruct rs as [|b rs]; [contradiction|].
  change (0 <? length (b :: rs))%nat with true. cbv iota. apply IH.
Qed.

(** ** The records of a complete sample block *)

Lemma read_values_complete (n : nat) (rs : list byte) :
  (4 * n <= length rs)%nat ->
  read_values FormatFloat32 n rs
  = (inl (map FormatFloat32 (words32 n rs)), drop (4 * n) rs).
Proof.
  revert rs. induction n as [|n IH]; intros rs Hlen; [reflexivity|].
  cbn [read_values words32 map]. unfold binary_Read_float32.
  rewrite io_ReadFull_enough by lia.
  rewrite IH by (rewrite length_drop; lia).
  rewrite LittleEndian_Uint32_value by (rewrite length_take; lia).
  rewrite take_take, drop_drop. repeat f_equal. lia.
Qed.

Lemma read_labels_complete (n : nat) (rs : list byte) :
  (2 * n <= length rs)%nat ->
  read_labels n rs
  = (inl (map (fun v => "g2(t, " +:+ FormatUint v +:+ ")") (words16 n rs)), drop (2 * n) rs).
Proof.
  revert rs. induction n as [|n IH]; intros rs Hlen; [reflexivity|].
  cbn [read_labels words16 map]. unfold binary_Read_uint16.
  rewrite io_ReadFull_enough by lia.
  rewrite IH by (rewrite length_drop; lia).
  rewrite LittleEndian_Uint16_value by (rewrite length_take; lia).
  rewrite take_take, drop_drop. repeat f_equal. lia.
Qed.

Lemma sample_rows_complete (n : nat) :
  (1 <= n)%nat ->
  forall (rows : nat) (body : list byte) (i : Z) (out : list (list string)) (fuel : nat),
    length body = (rows * (4 * n))%nat ->
    (rows < fuel)%nat ->
    sample_rows FormatFloat32 fuel n i body out
    = Ret (None, out ++ row_records FormatFloat32 n i rows body).
Proof.
  intros Hn. induction rows as [|rows IH]; intros body i out fuel Hlen Hfuel.
  - destruct body; [|simpl in Hlen; lia].
    destruct fuel; [lia|]. cbn. now rewrite app_nil_r.
  - destruct fuel as [|fuel]; [lia|]. cbn [sample_rows row_records].
    destruct (Nat.ltb_spec 0 (length body)); [|simpl in Hlen; lia].
    rewrite read_values_complete by (simpl in Hlen; lia).
    rewrite IH by (rewrite ?length_drop; simpl in Hlen; lia).
    now rewrite <- app_assoc.
Qed.

Lemma length_row_records (n : nat) (i : Z) (rows : nat) (body : list byte) :
  length (row_records FormatFloat32 n i rows body) = rows.
Proof.
  revert i body. induction rows as [|rows IH]; intros i body; simpl; [reflexivity|].
  now rewrite IH.
Qed.

Lemma lookup_row_records (n : nat) (i : Z) (rows k : nat) (body : list byte) :
  (k < rows)%nat ->
  row_records FormatFloat32 n i rows body !! k
  = Some (Itoa (i + Z.of_nat k)
            :: map FormatFloat32 (words32 n (drop (k * (4 * n)) body))).
Proof.
  revert i k body. induction rows as [|rows IH]; intros i k body Hk; [lia|].
  destruct k as [|k]; cbn [row_records].
  - cbn. now rewrite Z.add_0_r.
  - change ((?x :: ?l) !! S k) with (l !! k). rewrite IH by lia.
    rewrite drop_drop.
    replace (i + 1 + Z.of_nat k) with (i + Z.of_nat (S k)) by lia.
    replace (4 * n + k * (4 * n))%nat with (S k * (4 * n))%nat by (simpl; lia).
    reflexivity.
Qed.

Lemma words16_app (n : nat) (scales body : list byte) :
  (2 * n <= length scales)%nat -> words16 n (scales ++ body) = words16 n scales.
Proof.
  revert scales. induction n as [|n IH]; intros scales Hlen; [reflexivity|].
  cbn [words16]. rewrite take_app_le by lia.
  rewrite drop_app_le by lia. rewrite IH by (rewrite length_drop; lia). reflexivity.
Qed.

(** X6: what [processData] writes for a block of [N >= 1] columns and [rows]
    complete rows: it returns without error after [rows] passes of its
    loop, and the file holds the text of [rows + 1] records, the header and
    then, for every [k < rows], the record of row [k]: the index [k] and the
    [N] values of the row, in order, each rendered by [FormatFloat32]. *)
Lemma processData_records (b : byte) (scales body : list byte) (rows : nat)
    (file : string) (fs fs1 : FS) :
  1 <= u8 b ->
  length scales = (2 * Z.to_nat (u8 b))%nat ->
  length body = (rows * (4 * Z.to_nat (u8 b)))%nat ->
  os_Create fs file = inl fs1 ->
  let records := header_record (Z.to_nat (u8 b)) scales
                 :: row_records FormatFloat32 (Z.to_nat (u8 b)) 0 rows body in
  length records = S rows /\
  (forall k, (k < rows)%nat ->
     records !! S k
     = Some (Itoa (Z.of_nat k)
               :: map FormatFloat32
                    (words32 (Z.to_nat (u8 b)) (drop (k * (4 * Z.to_nat (u8 b))) body)))) /\
  forall fuel, (rows < fuel)%nat ->
    processData FormatFloat32 fuel (b :: scales ++ body) file fs
    = Ret (None, write_file fs1 file (list_byte_of_string (csv_text records))).
Proof.
  intros Hn Hsc Hbody Hcr records. split; [|split].
  - unfold records. simpl. now rewrite length_row_records.
  - intros k Hk. unfold records. change ((?x :: ?l) !! S k) with (l !! k).
    now rewrite lookup_row_records.
  - intros fuel Hfuel. unfold processData. rewrite Hcr.
    rewrite read_labels_complete by (rewrite length_app; lia).
    replace (drop (2 * Z.to_nat (u8 b)) (scales ++ body)) with body
      by (now rewrite <- Hsc, drop_app_length).
    rewrite (sample_rows_complete (Z.to_nat (u8 b)) ltac:(lia) rows) by lia.
    rewrite words16_app by lia. reflexivity.
Qed.

End ProgramProperties.

Lemma shard_index_witness :
  Sprintf_0d 6 (1025 / 512) = zero_pad 6 (FormatUint (1025 / 512)) /\
  exists file err fs',
    processMeta sample_xml_Encode (sample_metadata_1025 ++ sample_block)
      "/out/FOO" "FOO" sample_path 512 2 9 sample_fs_1025
    = Ret ((file, 1025 / 512, err), sample_block, fs') /\
    (err = None ->
     is_dir fs' (filepath_Join ["/out/FOO"; Sprintf_0d 6 (1025 / 512)]) = true /\
     is_file fs' (filepath_Join [filepath_Join ["/out/FOO"; Sprintf_0d 6 (1025 / 512)]; file]
                    +:+ ".xml") = true).
Proof.
  refine (shard_index sample_xml_Encode (sample_metadata_1025 ++ sample_block) sample_block
            "/out/FOO" "FOO" sample_path 512 2 9 sample_fs_1025
            (fst (dec_Metadata (H := LittleEndian) sample_metadata_1025)) _ _).
  - lia.
  - vm_compute. reflexivity.
Defined.

(** The example of the specification: sequence number 1025 and 512 files
    per directory give the directory 000002. *)
Lemma shard_index_example :
  Sprintf_0d 6 (1025 / 512) = "000002" /\
  exists fs',
    processFile sample_FormatFloat32 sample_xml_Encode 2 sample_fs_1025 sample_path "/out" 512
    = Ret (("/out/FOO/000002/000a_FOO_19800106_000080_001025.csv", None), fs').
Proof.
  split; [reflexivity|]. eexists. vm_compute. reflexivity.
Qed.

(** C3 as it is worded fails: the sample file has the sequence counter 2 in
    its envelope and the originator sequence number 1025 in its metadata;
    with 512 files per directory the counter of the envelope gives the index
    0, the code returns 2. *)
Lemma shard_index_not_from_envelope :
  exists meta r1 file err r2 fs',
    binary_Read_envelope (H := BigEndian)
      (sample_envelope ++ sample_metadata_1025 ++ sample_block) = (inl meta, r1) /\
    Seq meta = 2 /\
    processMeta sample_xml_Encode r1 "/out/FOO" "FOO" sample_path 512 (Seq meta) (When meta)
      sample_fs_1025
    = Ret ((file, 2, err), r2, fs') /\
    2 <> Seq meta / 512.
Proof.
  do 6 eexists. split; [reflexivity|]. split; [reflexivity|].
  split; [vm_compute; reflexivity|]. vm_compute. discriminate.
Qed.

Lemma identifier_of_conventional_name_witness :
  identifier sample_path = Some (strings_Join ["FOO"] "_") /\
  (["FOO"] = [] -> identifier sample_path = Some EmptyString) /\
  forall fuel fs datadir per msg,
    0 < per ->
    processFile sample_FormatFloat32 sample_xml_Encode fuel fs sample_path datadir per
    <> Panic msg.
Proof.
  apply (identifier_of_conventional_name sample_FormatFloat32 sample_xml_Encode
           sample_path "0033" ["FOO"] ["1"; "000002"; "20180114"; "212000"; "0.dat"]).
  - reflexivity.
  - reflexivity.
Defined.

(** With exactly six segments the identifier is empty and the file is
    processed all the same, under the destination root itself. *)
Lemma identifier_six_segments :
  identifier "/in/0033_1_000002_20180114_212000_0.dat" = Some EmptyString /\
  filepath_Join ["/out"; EmptyString] = "/out".
Proof. split; reflexivity. Qed.

(** C4 as it is worded fails: recognised files whose base names have three
    and five segments make the slice expression of [processFile] panic. *)
Lemma identifier_short_name_panics :
  length (strings_Split (filepath_Base "/in/a_b_c.dat") "_") = 3%nat /\
  processFile sample_FormatFloat32 sample_xml_Encode 2 sample_fs_odd "/in/a_b_c.dat" "/out" 512
  = Panic "slice bounds out of range" /\
  length (strings_Split (filepath_Base "/in/0033_FOO_000002_20180114_212000.dat") "_") = 5%nat /\
  processFile sample_FormatFloat32 sample_xml_Encode 2 sample_fs_odd
    "/in/0033_FOO_000002_20180114_212000.dat" "/out" 512
  = Panic "slice bounds out of range".
Proof. repeat split; vm_compute; reflexivity. Qed.

Lemma unrecognized_file_skipped_witness :
  processFile sample_FormatFloat32 sample_xml_Encode 2 sample_fs_odd "/in/notes.txt" "/out" 512
  = Ret ((EmptyString, None), sample_fs_odd).
Proof.
  apply (unrecognized_file_skipped sample_FormatFloat32 sample_xml_Encode 2 sample_fs_odd
           "/in/notes.txt" "/out" 512 (list_byte_of_string "not an SVS file at all")).
  - vm_compute. reflexivity.
  - vm_compute. lia.
  - vm_compute. discriminate.
Defined.

(** C5 as it is worded fails: a file of the four bytes ABCD does not start
    with "SVS ", and [processFile] returns an error for it, because the
    envelope is read as a whole before its tag is looked at. *)
Lemma short_unrecognized_file_is_an_error :
  files sample_fs_odd !! "/in/tiny" = Some (list_byte_of_string "ABCD") /\
  list_byte_of_string "ABCD" <> list_byte_of_string magic /\
  processFile sample_FormatFloat32 sample_xml_Encode 2 sample_fs_odd "/in/tiny" "/out" 512
  = Ret ((EmptyString, Some ErrUnexpectedEOF), sample_fs_odd).
Proof.
  split; [vm_compute; reflexivity|].
  split; [vm_compute; discriminate|].
  vm_compute. reflexivity.
Qed.

Lemma identifier_directory_created_witness :
  match os_MkdirAll sample_fs (filepath_Join ["/out"; "FOO"]) with
  | inr e =>
      processFile sample_FormatFloat32 sample_xml_Encode 2 sample_fs sample_path "/out" 512
      = Ret ((EmptyString, Some e), sample_fs)
  | inl fs1 =>
      is_dir fs1 (filepath_Join ["/out"; "FOO"]) = true /\
      forall res fs',
        processFile sample_FormatFloat32 sample_xml_Encode 2 sample_fs sample_path "/out" 512
        = Ret (res, fs') ->
        is_dir fs' (filepath_Join ["/out"; "FOO"]) = true /\
        (Seq {| FCC := list_byte_of_string "SVS "; Seq := 2; When := 9 |} <> 1 ->
         forall e r2,
           binary_Read_Metadata (H := LittleEndian) (sample_metadata ++ sample_block)
           = (inr e, r2) ->
           res = (EmptyString, Some e) /\ fs' = fs1)
  end.
Proof.
  apply (identifier_directory_created sample_FormatFloat32 sample_xml_Encode 2 sample_fs
           sample_path "/out" 512 sample_file (sample_metadata ++ sample_block)
           {| FCC := list_byte_of_string "SVS "; Seq := 2; When := 9 |} "FOO").
  - vm_compute. reflexivity.
  - vm_compute. reflexivity.
  - reflexivity.
  - reflexivity.
Defined.

(** A recognised data record cut short inside its metadata: the error is
    returned and the directory of the identifier is all that was made. *)
Lemma truncated_metadata_leaves_directory :
  exists fs',
    processFile sample_FormatFloat32 sample_xml_Encode 2
      {| dirs := {[ "/in"; "/out" ]};
         files := {[ sample_path := sample_envelope ++ take 40 sample_metadata ]} |}
      sample_path "/out" 512
    = Ret ((EmptyString, Some ErrUnexpectedEOF), fs') /\
    elements (dirs fs') = elements ({[ "/in"; "/out"; "/out/FOO" ]} : gset string) /\
    map fst (map_to_list (files fs')) = [sample_path].
Proof.
  eexists. split; [vm_compute; reflexivity|]. split; vm_compute; reflexivity.
Qed.

(** C10 as it is worded fails: these two files are recognised, yet for the
    first one [processFile] panics before it makes any directory, and for
    the second one the directory of the identifier cannot be made, because
    a regular file has its name; the error is returned and the directory
    does not exist afterwards. *)
Lemma identifier_directory_not_always_created :
  take 4 sample_file = list_byte_of_string magic /\
  processFile sample_FormatFloat32 sample_xml_Encode 2 sample_fs_odd "/in/a_b_c.dat" "/out" 512
  = Panic "slice bounds out of range" /\
  identifier "/in/x_FOO_1_2_3_4_5.dat" = Some "FOO" /\
  processFile sample_FormatFloat32 sample_xml_Encode 2 sample_fs_odd
    "/in/x_FOO_1_2_3_4_5.dat" "/out" 512
  = Ret ((EmptyString, Some (ENOTDIR "/out/FOO")), sample_fs_odd) /\
  is_dir sample_fs_odd (filepath_Join ["/out"; "FOO"]) = false.
Proof. repeat split; vm_compute; reflexivity. Qed.

Lemma processData_terminates_witness :
  (exists res, forall fuel,
      (length (drop 1 sample_block) < fuel)%nat ->
      processData sample_FormatFloat32 fuel sample_block "/out/rows.csv" sample_fs = Ret res) /\
  (forall rs0,
      match read_values sample_FormatFloat32 (Z.to_nat (u8 "002"%byte)) rs0 with
      | (inl vs, rs') =>
          (0 < 4 * Z.to_nat (u8 "002"%byte))%nat /\
          length rs0 = (4 * Z.to_nat (u8 "002"%byte) + length rs')%nat
      | (inr e, _) => e = EOF \/ e = ErrUnexpectedEOF
      end).
Proof.
  apply (processData_terminates sample_FormatFloat32 "002"%byte (drop 1 sample_block)
           "/out/rows.csv" sample_fs).
  vm_compute. discriminate.
Defined.

(** A block that announces no column and still has bytes keeps
    [processData] in its row loop. *)
Lemma processData_zero_columns_runs_on :
  forall fuel,
    processData sample_FormatFloat32 fuel (bytes_of [0; 1; 2; 3; 4]) "/out/rows.csv" sample_fs
    = Running.
Proof.
  intros fuel. unfold processData.
  change (os_Create sample_fs "/out/rows.csv")
    with (inl (A := FS) (B := error)
            {| dirs := dirs sample_fs; files := <["/out/rows.csv" := []]> (files sample_fs) |}).
  cbn [bytes_of map]. cbv beta iota.
  change (Z.to_nat (u8 _)) with 0%nat. cbn [read_labels].
  now rewrite sample_rows_zero_columns.
Qed.

(** ** The runner *)

Lemma effective_per_pos (per : Z) : 0 < effective_per per.
Proof.
  unfold effective_per, DefaultFiles. destruct (Z.leb_spec per 0); lia.
Qed.

Lemma effective_workers_pos (workers : Z) : 0 < effective_workers workers.
Proof.
  unfold effective_workers, DefaultWorkers. destruct (Z.leb_spec workers 0); lia.
Qed.

Lemma sema_Acquire_Some (size c n c' : Z) :
  sema_Acquire size c n = Some c' -> c' = c + n /\ c + n <= size.
Proof.
  unfold sema_Acquire. destruct (Z.leb_spec n (size - c)); [|discriminate].
  intros [= <-]. lia.
Qed.

Lemma sema_Release_Some (c n c' : Z) :
  sema_Release c n = Some c' -> c' = c - n /\ 0 <= c - n.
Proof.
  unfold sema_Release. destruct (Z.ltb_spec (c - n) 0); [discriminate|].
  intros [= <-]. lia.
Qed.

Lemma step_invariant (size : Z) (p p' : process) :
  0 < size -> run_invariant size p -> step size p p' -> run_invariant size p'.
Proof.
  intros Hsize Hinv Hstep.
  destruct Hstep as [f q c p i | c p i | f q c c' p i Hacq | f q c p i
                    | f o q m c p1 p2 i | f q m c p1 p2 i
                    | f o q m c c' p1 p2 i Hrel | f o q m c p1 p2 i Hrel
                    | q c c' p i Hacq];
    cbn [run_invariant cur pool pc queue held_by_main] in *;
    try exact I;
    destruct Hinv as (Hcur & Hle & Hq);
    try (apply sema_Acquire_Some in Hacq as (-> & Hfree));
    try (apply sema_Release_Some in Hrel as (-> & Hheld));
    rewrite ?length_app in *; cbn [length] in *.
  - repeat split; try lia. intros [? | ?]; discriminate.
  - repeat split; try lia.
  - repeat split; try lia. intros [? | ?]; discriminate.
  - repeat split; try lia. intros [? | ?]; discriminate.
  - repeat split; try lia. exact Hq.
  - repeat split; try lia. exact Hq.
  - repeat split; try lia. intros _. apply Hq. now left.
Qed.

Lemma reachable_invariant (files : list string) (workers : Z) (p : process) :
  reachable files workers p -> run_invariant (effective_workers workers) p.
Proof.
  induction 1 as [|p p' _ IH Hstep].
  - cbn. repeat split; try lia.
    + pose proof (effective_workers_pos workers). lia.
    + intros [? | ?]; discriminate.
  - exact (step_invariant _ _ _ (effective_workers_pos workers) IH Hstep).
Qed.

Lemma running_le_pool (s : run_state) : running s <= Z.of_nat (length (pool s)).
Proof.
  unfold running. apply inj_le, length_filter.
Qed.

(** C8: in every state that a run can reach, at most [workers] pipelines are
    running (the effective number, 4 when the flag is not positive); every
    goroutine that has not yet released its unit holds exactly one of the
    [workers] units of the semaphore; a goroutine that is back from
    [processFile] can release its unit whatever the outcome was; and when
    [main] has returned, the channel of paths is exhausted and no goroutine
    is left. *)
Theorem bounded_workers_full_drain (files : list string) (workers : Z) (s : run_state) :
  reachable files workers (Live s) ->
  running s <= effective_workers workers /\
  cur s = Z.of_nat (length (pool s)) + held_by_main (effective_workers workers) (pc s) /\
  cur s <= effective_workers workers /\
  (pc s = Returned -> queue s = [] /\ pool s = []) /\
  (forall p1 f o p2,
      pool s = p1 ++ Finished f o :: p2 ->
      step (effective_workers workers) (Live s)
        (Live {| queue := queue s; pc := pc s; cur := cur s - 1; pool := p1 ++ p2;
                 fid := fid s |})).
Proof.
  intros Hreach. apply reachable_invariant in Hreach as (Hcur & Hle & Hq).
  pose proof (running_le_pool s) as Hrun.
  pose proof (effective_workers_pos workers) as Hpos.
  assert (Hheld : 0 <= held_by_main (effective_workers workers) (pc s))
    by (destruct (pc s); simpl; lia).
  split; [lia|]. split; [exact Hcur|]. split; [exact Hle|]. split.
  - intros Hret. split; [apply Hq; now right|].
    rewrite Hret in Hcur. simpl in Hcur.
    destruct (pool s); [reflexivity | simpl in Hcur; lia].
  - intros p1 f o p2 Hpool. destruct s as [q m c p i]. simpl in *. subst p.
    apply step_release. unfold sema_Release.
    rewrite length_app in Hcur. simpl in Hcur.
    destruct (Z.ltb_spec (c - 1) 0); [lia | reflexivity].
Qed.

Lemma bounded_workers_full_drain_witness :
  let s := {| queue := ["b"]; pc := Receiving; cur := 1;
              pool := [Finished "a" Skipped]; fid := 1 |} in
  running s <= effective_workers 0 /\
  cur s = Z.of_nat (length (pool s)) + held_by_main (effective_workers 0) (pc s) /\
  cur s <= effective_workers 0 /\
  (pc s = Returned -> queue s = [] /\ pool s = []) /\
  (forall p1 f o p2,
      pool s = p1 ++ Finished f o :: p2 ->
      step (effective_workers 0) (Live s)
        (Live {| queue := queue s; pc := pc s; cur := cur s - 1; pool := p1 ++ p2;
                 fid := fid s |})).
Proof.
  apply (bounded_workers_full_drain ["a"; "b"] 0).
  eapply reach_step; [eapply reach_step; [eapply reach_step; [eapply reach_step;
    [apply reach_initial|]|]|]|].
  - apply step_receive.
  - apply step_acquire. reflexivity.
  - apply step_go.
  - apply (step_return _ "a" Skipped ["b"] Receiving 1 [] [] 1).
Defined.

(** A run on one path, from the first step of [main] to its return. *)
Lemma run_to_return :
  reachable ["a"] 1
    (Live {| queue := []; pc := Returned; cur := 1; pool := []; fid := 1 |}).
Proof.
  eapply reach_step; [eapply reach_step; [eapply reach_step; [eapply reach_step;
    [eapply reach_step; [eapply reach_step; [eapply reach_step;
      [apply reach_initial|]|]|]|]|]|]|].
  - apply step_receive.
  - apply step_acquire. reflexivity.
  - apply step_go.
  - apply step_closed.
  - apply (step_return _ "a" (Failed EOF) [] Draining 1 [] [] 1).
  - apply (step_release _ "a" (Failed EOF) [] Draining 1 0 [] [] 1). reflexivity.
  - apply step_drain. reflexivity.
Qed.

(** The header labels contain a comma, so the writer puts them in quotes;
    the text of the sample block with the stand-in rendering of floats. *)
Lemma sample_block_text :
  csv_field "g2(t, 5)" = String dquote ("g2(t, 5)" +:+ String dquote EmptyString) /\
  exists fs',
    processData sample_FormatFloat32 2 sample_block "/out/rows.csv" sample_fs = Ret (None, fs') /\
    files fs' !! "/out/rows.csv"
    = Some (list_byte_of_string
              (csv_text [ ["t"; "g2(t, 5)"; "g2(t, 9)"];
                          ["0"; "1069547520"; "3222274048"] ])).
Proof.
  split; [reflexivity|]. eexists. split; vm_compute; reflexivity.
Qed.

(** * Further properties *)

(** ** The envelope *)

Lemma BigEndian_Uint32_value (b : list byte) :
  (4 <= length b)%nat -> Uint32 (ByteOrder := BigEndian) b = be_value (take 4 b).
Proof.
  destruct b as [|b0 [|b1 [|b2 [|b3 t]]]]; simpl; try lia. intros _.
  unfold byte_at, be_value; simpl. byte_bounds.
  rewrite (lor_shiftl_add _ _ 8) by lia.
  rewrite (lor_shiftl_add _ _ 16) by lia.
  rewrite (lor_shiftl_add _ _ 24) by lia. lia.
Qed.

Lemma BigEndian_Uint64_value (b : list byte) :
  (8 <= length b)%nat -> Uint64 (ByteOrder := BigEndian) b = be_value (take 8 b).
Proof.
  destruct b as [|b0 [|b1 [|b2 [|b3 [|b4 [|b5 [|b6 [|b7 t]]]]]]]]; simpl; try lia.
  intros _. unfold byte_at, be_value; simpl. byte_bounds.
  rewrite (lor_shiftl_add _ _ 8) by lia.
  rewrite (lor_shiftl_add _ _ 16) by lia.
  rewrite (lor_shiftl_add _ _ 24) by lia.
  rewrite (lor_shiftl_add _ _ 32) by lia.
  rewrite (lor_shiftl_add _ _ 40) by lia.
  rewrite (lor_shiftl_add _ _ 48) by lia.
  rewrite (lor_shiftl_add _ _ 56) by lia. lia.
Qed.

Lemma binary_Read_envelope_inv (c r1 : list byte) (meta : envelope) :
  binary_Read_envelope (H := BigEndian) c = (inl meta, r1) ->
  (envelope_size <= length c)%nat /\ r1 = drop envelope_size c /\
  meta = fst (dec_envelope (H := BigEndian) (take envelope_size c)).
Proof.
  unfold binary_Read_envelope. intros Hread.
  destruct (Nat.le_gt_cases envelope_size (length c)) as [Hle | Hgt].
  - rewrite io_ReadFull_enough in Hread by exact Hle. injection Hread as <- <-. auto.
  - rewrite io_ReadFull_short in Hread by exact Hgt. discriminate.
Qed.

(** X1: the envelope is the first 16 bytes of the file: the tag is bytes 0
    to 3, the sequence counter the big-endian value of bytes 4 to 7, the
    timestamp the big-endian value of bytes 8 to 15, and the reader is left
    at byte 16. *)
Theorem envelope_wire_layout (c : list byte) :
  (envelope_size <= length c)%nat ->
  exists meta,
    binary_Read_envelope (H := BigEndian) c = (inl meta, drop 16 c) /\
    FCC meta = field 0 4 c /\
    Seq meta = be_value (field 4 4 c) /\
    When meta = be_value (field 8 8 c) /\
    0 <= Seq meta < 2 ^ 32 /\ 0 <= When meta < 2 ^ 64.
Proof.
  intros Hlen. change envelope_size with 16%nat in Hlen.
  unfold binary_Read_envelope. rewrite io_ReadFull_enough by exact Hlen.
  eexists. split; [reflexivity|].
  unfold dec_envelope, dec_bind, dec_ret, dec_bytes, dec_uint32, dec_uint64.
  cbn [fst FCC Seq When]. rewrite !drop_drop. cbn [Nat.add].
  assert (Hs : Uint32 (ByteOrder := BigEndian) (drop 4 (take envelope_size c))
               = be_value (field 4 4 c)).
  { rewrite BigEndian_Uint32_value by (rewrite length_drop, length_take; change envelope_size with 16%nat; lia).
    now rewrite field_of_take by (change envelope_size with 16%nat; lia). }
  assert (Hw : Uint64 (ByteOrder := BigEndian) (drop 8 (take envelope_size c))
               = be_value (field 8 8 c)).
  { rewrite BigEndian_Uint64_value by (rewrite length_drop, length_take; change envelope_size with 16%nat; lia).
    now rewrite field_of_take by (change envelope_size with 16%nat; lia). }
  rewrite Hs, Hw.
  split; [unfold field; now rewrite take_take|].
  split; [reflexivity|]. split; [reflexivity|].
  unfold be_value.
  pose proof (le_value_range (rev (field 4 4 c))) as H4.
  pose proof (le_value_range (rev (field 8 8 c))) as H8.
  rewrite length_rev in H4, H8. unfold field in H4, H8 |- *.
  rewrite length_take, length_drop in H4, H8.
  replace (4 `min` (length c - 4))%nat with 4%nat in H4 by lia.
  replace (8 `min` (length c - 8))%nat with 8%nat in H8 by lia.
  split; [exact H4 | exact H8].
Qed.

Lemma envelope_wire_layout_witness :
  exists meta,
    binary_Read_envelope (H := BigEndian) sample_file = (inl meta, drop 16 sample_file) /\
    FCC meta = field 0 4 sample_file /\
    Seq meta = be_value (field 4 4 sample_file) /\
    When meta = be_value (field 8 8 sample_file) /\
    0 <= Seq meta < 2 ^ 32 /\ 0 <= When meta < 2 ^ 64.
Proof.
  apply (envelope_wire_layout sample_file). vm_compute. lia.
Defined.

Section MoreProgramProperties.

Variable FormatFloat32 : Z -> string.
Variable xml_Encode : xml_document -> list byte.

(** X2: a file of fewer than 16 bytes is an error for [processFile] whatever
    it holds, [io.EOF] when it is empty and [io.ErrUnexpectedEOF] otherwise;
    nothing is created. *)
Theorem short_file_is_an_error (fuel : nat) (fs : FS) (file datadir : string)
    (per : Z) (content : list byte) :
  files fs !! file = Some content ->
  (length content < envelope_size)%nat ->
  processFile FormatFloat32 xml_Encode fuel fs file datadir per
  = Ret ((EmptyString,
          Some (match content with [] => EOF | _ => ErrUnexpectedEOF end)), fs).
Proof.
  intros Hfile Hlen. unfold processFile, os_Open. rewrite Hfile.
  unfold binary_Read_envelope. now rewrite io_ReadFull_short by exact Hlen.
Qed.

(** X3: for a recognised file whose sequence counter is 1, when the
    directory of the identifier and the file [<identifier>.ini] in it can be
    made, [processFile] returns the path of that file and no error, the file
    holds exactly the bytes of the input that follow the 16 bytes of the
    envelope, and no other file is touched. *)
Theorem intro_copied_verbatim (fuel : nat) (fs fs1 fs2 : FS) (file datadir upi : string)
    (per : Z) (content r1 : list byte) (meta : envelope) :
  os_Open fs file = inl content ->
  binary_Read_envelope (H := BigEndian) content = (inl meta, r1) ->
  FCC meta = list_byte_of_string magic ->
  Seq meta = 1 ->
  identifier file = Some upi ->
  os_MkdirAll fs (filepath_Join [datadir; upi]) = inl fs1 ->
  os_Create fs1 (filepath_Join [filepath_Join [datadir; upi]; upi +:+ ".ini"]) = inl fs2 ->
  let name := filepath_Join [filepath_Join [datadir; upi]; upi +:+ ".ini"] in
  exists fs',
    processFile FormatFloat32 xml_Encode fuel fs file datadir per = Ret ((name, None), fs') /\
    files fs' = <[name := drop 16 content]> (files fs) /\
    dirs fs' = dirs fs1.
Proof.
  intros Hopen Henv Hfcc Hseq Hid Hmk Hcr name. subst name.
  unfold processFile. rewrite Hopen, Henv, Hid, Hmk, Hseq.
  apply bytes_Equal_eq in Hfcc. rewrite Hfcc. cbn [negb Z.eqb Pos.eqb].
  unfold processIntro. rewrite Hcr.
  eexists. split; [reflexivity|].
  apply binary_Read_envelope_inv in Henv as (_ & -> & _).
  apply os_MkdirAll_spec in Hmk as (_ & _ & Hfiles).
  apply os_Create_spec in Hcr as (Hdirs & Hfiles2).
  unfold write_file. cbn [files dirs]. split; [|exact Hdirs].
  rewrite Hfiles2, Hfiles. apply insert_insert_eq.
Qed.

End MoreProgramProperties.

Lemma short_file_is_an_error_witness :
  processFile sample_FormatFloat32 sample_xml_Encode 2 sample_fs_odd "/in/tiny" "/out" 512
  = Ret ((EmptyString, Some ErrUnexpectedEOF), sample_fs_odd).
Proof.
  apply (short_file_is_an_error sample_FormatFloat32 sample_xml_Encode 2 sample_fs_odd
           "/in/tiny" "/out" 512 (list_byte_of_string "ABCD")).
  - vm_compute. reflexivity.
  - vm_compute. lia.
Defined.

Lemma intro_copied_verbatim_witness :
  exists fs',
    processFile sample_FormatFloat32 sample_xml_Encode 2 sample_fs_intro sample_path "/out" 512
    = Ret ((filepath_Join [filepath_Join ["/out"; "FOO"]; "FOO" +:+ ".ini"], None), fs') /\
    files fs' = <[filepath_Join [filepath_Join ["/out"; "FOO"]; "FOO" +:+ ".ini"]
                  := drop 16 sample_intro]> (files sample_fs_intro) /\
    dirs fs' = dirs {| dirs := {[ "/in"; "/out" ]} ∪ list_to_set (path_prefixes "" "/out/FOO");
                       files := files sample_fs_intro |}.
Proof.
  refine (intro_copied_verbatim sample_FormatFloat32 sample_xml_Encode 2 sample_fs_intro
            {| dirs := {[ "/in"; "/out" ]} ∪ list_to_set (path_prefixes "" "/out/FOO");
               files := files sample_fs_intro |}
            {| dirs := {[ "/in"; "/out" ]} ∪ list_to_set (path_prefixes "" "/out/FOO");
               files := <["/out/FOO/FOO.ini" := []]> (files sample_fs_intro) |}
            sample_path "/out" "FOO" 512 sample_intro (drop 16 sample_intro)
            {| FCC := list_byte_of_string "SVS "; Seq := 1; When := 9 |} _ _ _ _ _ _ _).
  - vm_compute. reflexivity.
  - vm_compute. reflexivity.
  - reflexivity.
  - reflexivity.
  - reflexivity.
  - reflexivity.
  - reflexivity.
Defined.

Section SampleBlockProperties.

Variable FormatFloat32 : Z -> string.

(** ** Blocks that are cut short *)

Lemma read_values_short (n : nat) (rs : list byte) :
  (length rs < 4 * n)%nat ->
  read_values FormatFloat32 n rs
  = (inr (if (length rs mod 4 =? 0)%nat then EOF else ErrUnexpectedEOF), []).
Proof.
  revert rs. induction n as [|n IH]; intros rs Hlen; [lia|].
  cbn [read_values]. unfold binary_Read_float32.
  destruct (Nat.le_gt_cases 4 (length rs)) as [Hle | Hgt].
  - rewrite io_ReadFull_enough by exact Hle.
    rewrite IH by (rewrite length_drop; lia). rewrite length_drop.
    replace (length rs) with (length rs - 4 + 1 * 4)%nat at 2 by lia.
    now rewrite Nat.Div0.mod_add.
  - rewrite io_ReadFull_short by exact Hgt.
    destruct rs as [|b rs]; [reflexivity|].
    rewrite Nat.mod_small by exact Hgt.
    destruct (Nat.eqb_spec (length (b :: rs)) 0) as [H0 | _]; [discriminate H0 | reflexivity].
Qed.

Lemma read_labels_short (n : nat) (rs : list byte) :
  (length rs < 2 * n)%nat ->
  read_labels n rs
  = (inr (if (length rs mod 2 =? 0)%nat then EOF else ErrUnexpectedEOF), []).
Proof.
  revert rs. induction n as [|n IH]; intros rs Hlen; [lia|].
  cbn [read_labels]. unfold binary_Read_uint16.
  destruct (Nat.le_gt_cases 2 (length rs)) as [Hle | Hgt].
  - rewrite io_ReadFull_enough by exact Hle.
    rewrite IH by (rewrite length_drop; lia). rewrite length_drop.
    replace (length rs) with (length rs - 2 + 1 * 2)%nat at 2 by lia.
    now rewrite Nat.Div0.mod_add.
  - rewrite io_ReadFull_short by exact Hgt.
    destruct rs as [|b rs]; [reflexivity|].
    rewrite Nat.mod_small by exact Hgt.
    destruct (Nat.eqb_spec (length (b :: rs)) 0) as [H0 | _]; [discriminate H0 | reflexivity].
Qed.

Lemma sample_rows_truncated (n : nat) :
  forall (rows : nat) (body : list byte) (i : Z) (out : list (list string))
         (fuel k : nat),
    length body = (rows * (4 * n) + k)%nat ->
    (0 < k < 4 * n)%nat ->
    (rows < fuel)%nat ->
    sample_rows FormatFloat32 fuel n i body out
    = Ret (Some (if (k mod 4 =? 0)%nat then EOF else ErrUnexpectedEOF),
           out ++ row_records FormatFloat32 n i rows body).
Proof.
  induction rows as [|rows IH]; intros body i out fuel k Hlen Hk Hfuel.
  - destruct fuel as [|fuel]; [lia|]. cbn [sample_rows row_records].
    destruct (Nat.ltb_spec 0 (length body)); [|simpl in Hlen; lia].
    rewrite read_values_short by (simpl in Hlen; lia).
    simpl in Hlen. rewrite Hlen. now rewrite app_nil_r.
  - destruct fuel as [|fuel]; [lia|]. cbn [sample_rows row_records].
    destruct (Nat.ltb_spec 0 (length body)); [|simpl in Hlen; lia].
    rewrite (read_values_complete FormatFloat32) by (simpl in Hlen; lia).
    rewrite (IH _ _ _ _ k) by (rewrite ?length_drop; simpl in Hlen; lia).
    now rewrite <- app_assoc.
Qed.

(** X4: when the bytes after the scale words are not a whole number of rows
    ([rows] complete rows and [k] more bytes, [0 < k < 4 * N]),
    [processData] returns a read error: [io.EOF] when the cut falls between
    two values, [io.ErrUnexpectedEOF] when it falls inside one.  The CSV
    file is left behind, holding what the buffered writer had passed on of
    the header and the complete rows. *)
Theorem processData_truncated_row (b : byte) (scales body : list byte) (rows k : nat)
    (file : string) (fs fs1 : FS) :
  length scales = (2 * Z.to_nat (u8 b))%nat ->
  length body = (rows * (4 * Z.to_nat (u8 b)) + k)%nat ->
  (0 < k < 4 * Z.to_nat (u8 b))%nat ->
  os_Create fs file = inl fs1 ->
  forall fuel, (rows < fuel)%nat ->
    processData FormatFloat32 fuel (b :: scales ++ body) file fs
    = Ret (Some (if (k mod 4 =? 0)%nat then EOF else ErrUnexpectedEOF),
           write_file fs1 file
             (bufio_passed_on
                (list_byte_of_string
                   (csv_text (header_record (Z.to_nat (u8 b)) scales
                              :: row_records FormatFloat32 (Z.to_nat (u8 b)) 0 rows body))))).
Proof.
  intros Hsc Hbody Hk Hcr fuel Hfuel. unfold processData. rewrite Hcr.
  rewrite (read_labels_complete) by (rewrite length_app; lia).
  replace (drop (2 * Z.to_nat (u8 b)) (scales ++ body)) with body
    by (now rewrite <- Hsc, drop_app_length).
  rewrite (sample_rows_truncated (Z.to_nat (u8 b)) rows body 0 _ fuel k) by lia.
  rewrite words16_app by lia. reflexivity.
Qed.

(** X5: a block without its column count, or with fewer scale words than
    the count announces, makes [processData] return a read error ([io.EOF]
    when the block ends between two words, [io.ErrUnexpectedEOF] inside
    one); the CSV file has been created and is empty. *)
Theorem processData_incomplete_header (r : list byte) (file : string) (fs fs1 : FS)
    (fuel : nat) :
  os_Create fs file = inl fs1 ->
  match r with
  | [] => True
  | b :: rs => (length rs < 2 * Z.to_nat (u8 b))%nat
  end ->
  processData FormatFloat32 fuel r file fs
  = Ret (Some (if (length (tail r) mod 2 =? 0)%nat then EOF else ErrUnexpectedEOF), fs1)
  /\ files fs1 !! file = Some [].
Proof.
  intros Hcr Hshort. unfold processData. rewrite Hcr.
  apply os_Create_spec in Hcr as (_ & Hfiles).
  split; [|rewrite Hfiles; apply lookup_insert_eq].
  destruct r as [|b rs]; [reflexivity|].
  now rewrite read_labels_short by exact Hshort.
Qed.

End SampleBlockProperties.

Lemma processData_truncated_row_witness :
    processData sample_FormatFloat32 2
      ("002"%byte :: bytes_of [5; 0; 9; 0] ++ (drop 5 sample_block ++ bytes_of [1; 2; 3; 4; 5]))
      "/out/rows.csv" sample_fs
    = Ret (Some ErrUnexpectedEOF,
           write_file
             {| dirs := dirs sample_fs; files := <["/out/rows.csv" := []]> (files sample_fs) |}
             "/out/rows.csv"
             (bufio_passed_on
                (list_byte_of_string
                   (csv_text (header_record (Z.to_nat (u8 "002"%byte)) (bytes_of [5; 0; 9; 0])
                              :: row_records sample_FormatFloat32 (Z.to_nat (u8 "002"%byte)) 0 1
                                   (drop 5 sample_block ++ bytes_of [1; 2; 3; 4; 5])))))).
Proof.
  refine (processData_truncated_row sample_FormatFloat32 "002"%byte (bytes_of [5; 0; 9; 0])
            (drop 5 sample_block ++ bytes_of [1; 2; 3; 4; 5]) 1 5 "/out/rows.csv" sample_fs
            _ _ _ _ _ 2%nat _).
  - reflexivity.
  - reflexivity.
  - vm_compute. lia.
  - reflexivity.
  - lia.
Defined.

Lemma processData_incomplete_header_witness :
  processData sample_FormatFloat32 2 (bytes_of [3; 5; 0; 9]) "/out/rows.csv" sample_fs
  = Ret (Some ErrUnexpectedEOF,
         {| dirs := dirs sample_fs; files := <["/out/rows.csv" := []]> (files sample_fs) |})
  /\ files {| dirs := dirs sample_fs; files := <["/out/rows.csv" := []]> (files sample_fs) |}
       !! "/out/rows.csv" = Some [].
Proof.
  apply (processData_incomplete_header sample_FormatFloat32 (bytes_of [3; 5; 0; 9])
           "/out/rows.csv" sample_fs).
  - reflexivity.
  - vm_compute. lia.
Defined.

Lemma processData_records_witness :
  let records := header_record (Z.to_nat (u8 "002"%byte)) (bytes_of [5; 0; 9; 0])
                 :: row_records sample_FormatFloat32 (Z.to_nat (u8 "002"%byte)) 0 1
                      (drop 5 sample_block) in
  length records = 2%nat /\
  (forall k, (k < 1)%nat ->
     records !! S k
     = Some (Itoa (Z.of_nat k)
               :: map sample_FormatFloat32
                    (words32 (Z.to_nat (u8 "002"%byte))
                       (drop (k * (4 * Z.to_nat (u8 "002"%byte))) (drop 5 sample_block))))) /\
  forall fuel, (1 < fuel)%nat ->
    processData sample_FormatFloat32 fuel
      ("002"%byte :: bytes_of [5; 0; 9; 0] ++ drop 5 sample_block) "/out/rows.csv" sample_fs
    = Ret (None,
           write_file
             {| dirs := dirs sample_fs; files := <["/out/rows.csv" := []]> (files sample_fs) |}
             "/out/rows.csv" (list_byte_of_string (csv_text records))).
Proof.
  apply (processData_records sample_FormatFloat32 "002"%byte (bytes_of [5; 0; 9; 0])
           (drop 5 sample_block) 1 "/out/rows.csv" sample_fs).
  - vm_compute. discriminate.
  - reflexivity.
  - reflexivity.
  - reflexivity.
Defined.

(** ** The header line *)

Lemma NilEmpty_digits (d : Decimal.uint) :
  Forall (fun c => is_digit c = true)
         (list_ascii_of_string (DecimalString.NilEmpty.string_of_uint d)).
Proof.
  induction d; simpl; constructor; try reflexivity; assumption.
Qed.

Lemma FormatUint_digits (n : Z) :
  Forall (fun c => is_digit c = true) (list_ascii_of_string (FormatUint n)).
Proof.
  unfold FormatUint, DecimalString.NilZero.string_of_uint.
  destruct (N.to_uint (Z.to_N n)) eqn:Hd;
    try (rewrite <- Hd; apply NilEmpty_digits).
  repeat constructor.
Qed.

Lemma FormatUint_not_empty (n : Z) : FormatUint n <> EmptyString.
Proof.
  unfold FormatUint, DecimalString.NilZero.string_of_uint.
  destruct (N.to_uint (Z.to_N n)); discriminate.
Qed.

Lemma digit_not_special (c : ascii) :
  is_digit c = true -> is_special c = false /\ Ascii.eqb c dquote = false.
Proof.
  destruct c as [[|] [|] [|] [|] [|] [|] [|] [|]]; intros H; vm_compute in H;
    try discriminate H; split; reflexivity.
Qed.

Lemma quote_body_plain (s : string) :
  Forall (fun c => Ascii.eqb c dquote = false) (list_ascii_of_string s) ->
  quote_body s = s.
Proof.
  induction s as [|c s IH]; simpl; [reflexivity|].
  intros H. inversion H as [|? ? Hc Hs]; subst. rewrite Hc. now rewrite IH.
Qed.

Lemma csv_field_column_label (v : Z) :
  csv_field (column_label v)
  = String dquote (column_label v +:+ String dquote EmptyString).
Proof.
  assert (Hchars : list_ascii_of_string (column_label v)
                   = list_ascii_of_string "g2(t, "
                       ++ list_ascii_of_string (FormatUint v) ++ [")"%char]).
  { unfold column_label. now rewrite !list_ascii_of_append. }
  assert (Hq : quote_body (column_label v) = column_label v).
  { apply quote_body_plain. rewrite Hchars.
    apply Forall_app. split; [repeat constructor|].
    apply Forall_app. split; [|repeat constructor].
    eapply Forall_impl; [apply FormatUint_digits|].
    intros c Hc. now apply digit_not_special. }
  unfold csv_field.
  assert (Hn : fieldNeedsQuotes (column_label v) = true).
  { unfold fieldNeedsQuotes. rewrite Hchars.
    change (column_label v) with (String "g" ("2(t, " +:+ FormatUint v +:+ ")")).
    cbn [String.eqb Ascii.eqb Bool.eqb]. reflexivity. }
  now rewrite Hn, Hq.
Qed.

Lemma csv_fields_cons (f g : string) (l : list string) :
  csv_fields (f :: g :: l) = csv_field f +:+ String comma (csv_fields (g :: l)).
Proof. reflexivity. Qed.

Lemma csv_fields_labels (f : string) (vs : list Z) :
  csv_fields (f :: map column_label vs)
  = csv_field f
    +:+ String.concat EmptyString
          (map (fun v => String comma
                           (String dquote (column_label v +:+ String dquote EmptyString)))
               vs).
Proof.
  revert f. induction vs as [|v vs IH]; intros f.
  - cbn. now rewrite append_empty_r.
  - change (map column_label (v :: vs)) with (column_label v :: map column_label vs).
    rewrite csv_fields_cons, IH, csv_field_column_label.
    change (String.concat EmptyString (map ?g (v :: vs)))
      with (String.concat EmptyString (g v :: map g vs)).
    destruct vs as [|v' vs].
    + cbn [map String.concat]. now rewrite !append_empty_r.
    + cbn [map String.concat]. rewrite !append_empty_l.
      now rewrite append_cons.
Qed.

(** X7: the header line that [processData] writes is [t] followed, for
    every scale word, by a comma and the label [g2(t, <scale>)] between
    double quotes: the comma inside the label makes the CSV writer quote
    it. *)
Theorem header_line_quoted (n : nat) (scales : list byte) :
  csv_Write (header_record n scales)
  = "t" +:+ String.concat EmptyString
              (map (fun v => String comma
                               (String dquote
                                  (("g2(t, " +:+ FormatUint v +:+ ")")
                                   +:+ String dquote EmptyString)))
                   (words16 n scales))
        +:+ String LF EmptyString.
Proof.
  unfold csv_Write, header_record.
  change (fun v : Z => "g2(t, " +:+ FormatUint v +:+ ")") with column_label.
  rewrite csv_fields_labels. rewrite append_assoc. reflexivity.
Qed.

(** ** What [processFile] leaves in place *)

Lemma fs_grows_refl (fs : FS) : fs_grows fs fs.
Proof. split; [reflexivity | auto]. Qed.

Lemma fs_grows_trans (fs1 fs2 fs3 : FS) :
  fs_grows fs1 fs2 -> fs_grows fs2 fs3 -> fs_grows fs1 fs3.
Proof.
  intros [Hd1 Hf1] [Hd2 Hf2]. split; [now transitivity (dirs fs2) | auto].
Qed.

Lemma os_MkdirAll_grows (fs fs' : FS) (p : string) :
  os_MkdirAll fs p = inl fs' -> fs_grows fs fs'.
Proof.
  intros H. apply os_MkdirAll_spec in H as (_ & Hd & Hf).
  split; [exact Hd | now rewrite Hf].
Qed.

Lemma os_Create_grows (fs fs' : FS) (p : string) :
  os_Create fs p = inl fs' -> fs_grows fs fs'.
Proof.
  intros H. apply os_Create_spec in H as (Hd & Hf).
  split; [now rewrite Hd|]. intros q Hq. rewrite Hf.
  destruct (decide (p = q)) as [-> | Hne];
    [rewrite lookup_insert_eq; eauto | now rewrite lookup_insert_ne].
Qed.

Lemma write_file_grows (fs : FS) (p : string) (content : list byte) :
  fs_grows fs (write_file fs p content).
Proof.
  split; [reflexivity|]. intros q Hq. unfold write_file. cbn [files].
  destruct (decide (p = q)) as [-> | Hne];
    [rewrite lookup_insert_eq; eauto | now rewrite lookup_insert_ne].
Qed.

Lemma filepath_Clean_not_empty (p : string) : filepath_Clean p <> EmptyString.
Proof.
  unfold filepath_Clean. destruct (_ +:+ _); discriminate.
Qed.

Lemma filepath_Join_not_empty (l : list string) :
  Exists (fun e => e <> EmptyString) l -> filepath_Join l <> EmptyString.
Proof.
  induction l as [|e l IH]; intros H; [inversion H|].
  cbn [filepath_Join]. destruct (String.eqb_spec e "") as [-> | Hne].
  - apply IH. inversion H; subst; [contradiction | assumption].
  - apply filepath_Clean_not_empty.
Qed.

Lemma append_not_empty_r (a b : string) : b <> EmptyString -> a +:+ b <> EmptyString.
Proof.
  intros Hb H. apply (f_equal String.length) in H. rewrite length_append in H.
  destruct b; [contradiction | simpl in H; lia].
Qed.

Section FrameProperties.

Variable FormatFloat32 : Z -> string.
Variable xml_Encode : xml_document -> list byte.

Lemma processIntro_grows (r : list byte) (datadir upi : string) (fs fs' : FS)
    (res : string * option error) :
  processIntro r datadir upi fs = (res, fs') -> fs_grows fs fs'.
Proof.
  unfold processIntro. destruct (os_Create fs _) as [fs1 | e] eqn:Hcr.
  - intros [= _ <-]. eapply fs_grows_trans; [eapply os_Create_grows; exact Hcr|].
    apply write_file_grows.
  - intros [= _ <-]. apply fs_grows_refl.
Qed.

Lemma processMeta_grows (r r' : list byte) (datadir upi source : string) (per seq : Z)
    (when : Timestamp) (fs fs' : FS) (res : string * Z * option error) :
  processMeta xml_Encode r datadir upi source per seq when fs = Ret (res, r', fs') ->
  fs_grows fs fs'.
Proof.
  unfold processMeta. destruct (binary_Read_Metadata r) as [[info | e] r0].
  - destruct (per =? 0); [discriminate|].
    destruct (os_MkdirAll fs _) as [fs1 | e] eqn:Hmk.
    + apply os_MkdirAll_grows in Hmk.
      destruct (os_Create fs1 _) as [fs2 | e] eqn:Hcr.
      * apply os_Create_grows in Hcr. intros [= _ _ <-].
        eapply fs_grows_trans; [exact Hmk|].
        eapply fs_grows_trans; [exact Hcr | apply write_file_grows].
      * now intros [= _ _ <-].
    + intros [= _ _ <-]. apply fs_grows_refl.
  - intros [= _ _ <-]. apply fs_grows_refl.
Qed.

Lemma processData_grows (fuel : nat) (r : list byte) (file : string) (fs fs' : FS)
    (err : option error) :
  processData FormatFloat32 fuel r file fs = Ret (err, fs') -> fs_grows fs fs'.
Proof.
  unfold processData. destruct (os_Create fs file) as [fs1 | e] eqn:Hcr.
  - apply os_Create_grows in Hcr.
    destruct r as [|b rs]; [now intros [= _ <-]|].
    destruct (read_labels _ rs) as [[labels | e] rs1]; [|now intros [= _ <-]].
    destruct (sample_rows _ _ _ _ _ _) as [[[e|] out] | msg' |]; try discriminate;
      intros [= _ <-]; (eapply fs_grows_trans; [exact Hcr | apply write_file_grows]).
  - intros [= _ <-]. apply fs_grows_refl.
Qed.

(** X8: whatever [processFile] returns, every directory and every file that
    existed before the call exists after it: the function creates and
    overwrites, it removes nothing. *)
Theorem processFile_removes_nothing (fuel : nat) (fs fs' : FS) (file datadir : string)
    (per : Z) (res : string * option error) :
  processFile FormatFloat32 xml_Encode fuel fs file datadir per = Ret (res, fs') ->
  dirs fs ⊆ dirs fs' /\
  forall p, is_Some (files fs !! p) -> is_Some (files fs' !! p).
Proof.
  unfold processFile.
  destruct (os_Open fs file) as [r | e]; [|intros [= _ <-]; apply fs_grows_refl].
  destruct (binary_Read_envelope r) as [[meta | e] r1];
    [|intros [= _ <-]; apply fs_grows_refl].
  destruct (negb _); [intros [= _ <-]; apply fs_grows_refl|].
  destruct (identifier file) as [upi|]; [|discriminate].
  destruct (os_MkdirAll fs _) as [fs1 | e] eqn:Hmk;
    [|intros [= _ <-]; apply fs_grows_refl].
  apply os_MkdirAll_grows in Hmk.
  destruct (Seq meta =? 1).
  - destruct (processIntro r1 _ upi fs1) as [res0 fs0] eqn:Hi. intros [= _ <-].
    eapply fs_grows_trans; [exact Hmk | eapply processIntro_grows; exact Hi].
  - destruct (processMeta _ _ _ _ _ _ _ _ _) as [[[[[f p] [e|]] r2] fs2] | msg' |] eqn:Hmeta;
      try discriminate.
    + intros [= _ <-].
      eapply fs_grows_trans; [exact Hmk | eapply processMeta_grows; exact Hmeta].
    + destruct (processData _ _ _ _ _) as [[err fs3] | msg' |] eqn:Hdat; try discriminate.
      intros [= _ <-].
      eapply fs_grows_trans; [exact Hmk|].
      eapply fs_grows_trans; [eapply processMeta_grows; exact Hmeta|].
      eapply processData_grows; exact Hdat.
Qed.

(** X9: [processFile] returns the empty path together with no error, the
    result that [main] passes over in silence, only for a file that it
    could open and whose envelope it could read but whose tag is not
    "SVS "; it has then changed nothing.  A recognised file gives an error
    or the path of what was written. *)
Theorem silent_only_when_unrecognised (fuel : nat) (fs fs' : FS) (file datadir : string)
    (per : Z) :
  processFile FormatFloat32 xml_Encode fuel fs file datadir per
  = Ret ((EmptyString, None), fs') ->
  fs' = fs /\
  exists content meta r1,
    os_Open fs file = inl content /\
    binary_Read_envelope (H := BigEndian) content = (inl meta, r1) /\
    FCC meta <> list_byte_of_string magic.
Proof.
  unfold processFile.
  destruct (os_Open fs file) as [r | e]; [|discriminate].
  destruct (binary_Read_envelope r) as [[meta | e] r1] eqn:Henv; [|discriminate].
  destruct (bytes_Equal (FCC meta) (list_byte_of_string magic)) eqn:Htag; cbn [negb].
  - destruct (identifier file) as [upi|]; [|discriminate].
    destruct (os_MkdirAll fs _) as [fs1 | e]; [|discriminate].
    destruct (Seq meta =? 1).
    + unfold processIntro. destruct (os_Create fs1 _); [|discriminate].
      intros [= Hname _]. exfalso.
      refine (filepath_Join_not_empty [filepath_Join [datadir; upi]; upi +:+ ".ini"] _ Hname).
      apply Exists_cons_tl, Exists_cons_hd.
      apply append_not_empty_r. discriminate.
    + destruct (processMeta _ _ _ _ _ _ _ _ _) as [[[[[f p] [e|]] r2] fs2] | msg' |] eqn:Hmeta;
        try discriminate.
      destruct (processData _ _ _ _ _) as [[err fs3] | msg' |]; try discriminate.
      intros [= Hname _]. exfalso.
      refine (filepath_Join_not_empty [filepath_Join [datadir; upi]; Sprintf_0d 6 p; f] _ Hname).
      apply Exists_cons_tl, Exists_cons_hd.
      unfold Sprintf_0d. destruct (p <? 0); [discriminate|].
      unfold zero_pad. apply append_not_empty_r, FormatUint_not_empty.
  - intros [= <-]. split; [reflexivity|].
    exists r, meta, r1. split; [reflexivity|]. split; [exact Henv|].
    intros Heq. apply bytes_Equal_eq in Heq. congruence.
Qed.

End FrameProperties.

Lemma processFile_removes_nothing_witness :
  let fs' := write_file
               {| dirs := {[ "/in"; "/out" ]} ∪ list_to_set (path_prefixes "" "/out/FOO");
                  files := <["/out/FOO/FOO.ini" := []]> (files sample_fs_intro) |}
               "/out/FOO/FOO.ini" (drop 16 sample_intro) in
  dirs sample_fs_intro ⊆ dirs fs' /\
  forall p, is_Some (files sample_fs_intro !! p) -> is_Some (files fs' !! p).
Proof.
  apply (processFile_removes_nothing sample_FormatFloat32 sample_xml_Encode 2
           sample_fs_intro _ sample_path "/out" 512 ("/out/FOO/FOO.ini", None)).
  vm_compute. reflexivity.
Defined.

Lemma silent_only_when_unrecognised_witness :
  sample_fs_odd = sample_fs_odd /\
  exists content meta r1,
    os_Open sample_fs_odd "/in/notes.txt" = inl content /\
    binary_Read_envelope (H := BigEndian) content = (inl meta, r1) /\
    FCC meta <> list_byte_of_string magic.
Proof.
  apply (silent_only_when_unrecognised sample_FormatFloat32 sample_xml_Encode 2
           sample_fs_odd sample_fs_odd "/in/notes.txt" "/out" 512).
  vm_compute. reflexivity.
Defined.

(** ** The identifier of a file that follows the convention *)

Lemma strings_Split_plain (e : string) (sep : ascii) :
  ~ In sep (list_ascii_of_string e) -> strings_Split e sep = [e].
Proof.
  induction e as [|c e IH]; intros Hno; [reflexivity|].
  simpl in Hno. cbn [strings_Split].
  destruct (Ascii.eqb_spec c sep) as [-> | Hc]; [tauto|].
  rewrite IH by tauto. reflexivity.
Qed.

Lemma strings_Split_app (e r : string) (sep : ascii) :
  ~ In sep (list_ascii_of_string e) ->
  strings_Split (e +:+ String sep r) sep = e :: strings_Split r sep.
Proof.
  induction e as [|c e IH]; intros Hno.
  - rewrite append_empty_l. cbn [strings_Split]. now rewrite Ascii.eqb_refl.
  - simpl in Hno. rewrite append_cons. cbn [strings_Split].
    destruct (Ascii.eqb_spec c sep) as [-> | Hc]; [tauto|].
    rewrite IH by tauto. reflexivity.
Qed.

(** Splitting what was joined gives the segments back, as long as none of
    them contains the separator. *)
Lemma strings_Split_Join (segs : list string) (sep : ascii) :
  segs <> [] ->
  Forall (fun e => ~ In sep (list_ascii_of_string e)) segs ->
  strings_Split (strings_Join segs (String sep EmptyString)) sep = segs.
Proof.
  induction segs as [|e segs IH]; intros Hne Hno; [contradiction|].
  inversion Hno as [|? ? He Hrest]; subst.
  destruct segs as [|e' segs].
  - cbn [strings_Join]. now apply strings_Split_plain.
  - change (strings_Join (e :: e' :: segs) (String sep EmptyString))
      with (e +:+ String sep EmptyString +:+ strings_Join (e' :: segs) (String sep EmptyString)).
    rewrite append_cons, append_empty_l.
    rewrite strings_Split_app by exact He.
    rewrite IH by (try discriminate; exact Hrest). reflexivity.
Qed.

Lemma In_strings_Join (c : ascii) (segs : list string) (sep : string) :
  In c (list_ascii_of_string (strings_Join segs sep)) ->
  In c (list_ascii_of_string sep) \/ Exists (fun e => In c (list_ascii_of_string e)) segs.
Proof.
  induction segs as [|e segs IH]; [simpl; tauto|].
  destruct segs as [|e' segs].
  - cbn [strings_Join]. intros H. right. now constructor.
  - change (strings_Join (e :: e' :: segs) sep)
      with (e +:+ sep +:+ strings_Join (e' :: segs) sep).
    rewrite !list_ascii_of_append. intros H.
    apply in_app_or in H as [H | H]; [right; now constructor|].
    apply in_app_or in H as [H | H]; [now left|].
    destruct (IH H) as [? | Hex]; [now left | right; now apply Exists_cons_tl].
Qed.

Lemma drop_slashes_plain (cs : list ascii) :
  match cs with c :: _ => c <> slash | [] => True end -> drop_slashes cs = cs.
Proof.
  destruct cs as [|c cs]; [reflexivity|]. intros Hc. cbn [drop_slashes].
  destruct (Ascii.eqb_spec c slash); [contradiction | reflexivity].
Qed.

Lemma until_slash_app (cs rest : list ascii) :
  ~ In slash cs -> until_slash (cs ++ slash :: rest) = cs.
Proof.
  induction cs as [|c cs IH]; intros Hno.
  - reflexivity.
  - simpl in Hno. cbn [app until_slash].
    destruct (Ascii.eqb_spec c slash) as [-> | _]; [tauto|].
    rewrite IH by tauto. reflexivity.
Qed.

(** The last element of a path is its base name. *)
Lemma filepath_Base_last (dir name : string) :
  name <> EmptyString ->
  ~ In slash (list_ascii_of_string name) ->
  filepath_Base (dir +:+ "/" +:+ name) = name.
Proof.
  intros Hne Hno. unfold filepath_Base.
  assert (Hchars : list_ascii_of_string (dir +:+ "/" +:+ name)
                   = list_ascii_of_string dir ++ slash :: list_ascii_of_string name).
  { now rewrite !list_ascii_of_append. }
  destruct (dir +:+ "/" +:+ name) as [|c0 s0] eqn:Hpath.
  { destruct dir; discriminate Hchars. }
  rewrite Hchars, rev_app_distr. cbn [rev]. rewrite <- app_assoc. cbn [app].
  assert (Hrev : ~ In slash (rev (list_ascii_of_string name))).
  { intros Hin. apply Hno. now apply in_rev. }
  rewrite drop_slashes_plain.
  - rewrite until_slash_app by exact Hrev. rewrite rev_involutive.
    destruct (list_ascii_of_string name) as [|c cs] eqn:Hn.
    + destruct name; [contradiction | discriminate Hn].
    + rewrite <- Hn. apply string_of_list_ascii_of_string.
  - destruct (rev (list_ascii_of_string name)) as [|c cs] eqn:Hr.
    + apply (f_equal (@length ascii)) in Hr. rewrite length_rev, length_list_ascii in Hr.
      destruct name; [contradiction | discriminate Hr].
    + cbn [app]. intros ->. apply Hrev. now left.
Qed.

(** X10: for a file in some directory whose name is a first segment, the
    segments of an identifier and five more segments, joined by
    underscores, none of the segments containing an underscore or a slash,
    the identifier that [processFile] works with is the segments of the
    identifier joined by underscores again: an identifier that has
    underscores in it comes through whole. *)
Theorem identifier_recovered (dir first : string) (middle last5 : list string) :
  length last5 = 5%nat ->
  Forall (fun e => ~ In "_"%char (list_ascii_of_string e)
                   /\ ~ In slash (list_ascii_of_string e)) (first :: middle ++ last5) ->
  identifier (dir +:+ "/" +:+ strings_Join (first :: middle ++ last5) "_")
  = Some (strings_Join middle "_").
Proof.
  intros Hlast Hsegs. unfold identifier.
  rewrite filepath_Base_last.
  - rewrite (strings_Split_Join (first :: middle ++ last5) "_"%char);
      [|discriminate | eapply Forall_impl; [exact Hsegs | intros e He; apply He]].
    pose proof (slice_expr_middle first middle last5) as Hs.
    rewrite Hlast in Hs. change (Z.of_nat 5) with 5 in Hs. now rewrite Hs.
  - destruct last5 as [|l1 last5]; [discriminate Hlast|].
    destruct (middle ++ l1 :: last5) as [|x xs] eqn:Hm;
      [destruct middle; discriminate Hm|].
    change (strings_Join (first :: x :: xs) "_")
      with (first +:+ "_" +:+ strings_Join (x :: xs) "_").
    apply append_not_empty_r. discriminate.
  - intros Hin. apply In_strings_Join in Hin as [Hin | Hex].
    + cbn in Hin. destruct Hin as [Hin | []]. discriminate Hin.
    + apply Exists_exists in Hex as (e & He & Hin).
      rewrite Forall_forall in Hsegs. exact (proj2 (Hsegs e He) Hin).
Qed.

Lemma identifier_recovered_witness :
  identifier ("/in/hadock" +:+ "/"
              +:+ strings_Join ("0033" :: ["FLOW"; "RATE"; "A"]
                                  ++ ["1"; "000002"; "20180114"; "212000"; "0.dat"]) "_")
  = Some (strings_Join ["FLOW"; "RATE"; "A"] "_").
Proof.
  apply (identifier_recovered "/in/hadock" "0033" ["FLOW"; "RATE"; "A"]
           ["1"; "000002"; "20180114"; "212000"; "0.dat"]).
  - reflexivity.
  - repeat constructor; vm_compute; intuition discriminate.
Defined.

(** ** Timestamps *)

Lemma Time_Add_instant (t : Time) (d : Z) :
  0 <= nanos t < 1000000000 ->
  unix_sec (Time_Add t d) * 1000000000 + nanos (Time_Add t d)
  = unix_sec t * 1000000000 + nanos t + d
  /\ 0 <= nanos (Time_Add t d) < 1000000000.
Proof.
  intros Hn. unfold Time_Add.
  pose proof (Z.quot_rem' d 1000000000) as Hqr.
  assert (Hr : - 1000000000 < Z.rem d 1000000000 < 1000000000).
  { destruct (Z.le_gt_cases 0 d).
    - pose proof (Z.rem_bound_pos_pos d 1000000000); lia.
    - pose proof (Z.rem_bound_pos_neg d 1000000000); lia. }
  destruct (Z.leb_spec 1000000000 (nanos t + Z.rem d 1000000000)); cbn [unix_sec nanos];
    [lia|].
  destruct (Z.ltb_spec (nanos t + Z.rem d 1000000000) 0); cbn [unix_sec nanos]; lia.
Qed.

(** X11: a timestamp below [2^63] is the instant that many nanoseconds after
    1980-01-06T00:00:00Z (315964800 s after the Unix epoch); from [2^63] on,
    the conversion to a signed duration wraps and the instant lies
    [2^64 - t] nanoseconds before that date.  The nanoseconds of the
    instant are always within the second. *)
Theorem Timestamp_Time_instant (t : Timestamp) :
  0 <= t < 2 ^ 64 ->
  unix_sec (Timestamp_Time t) * 1000000000 + nanos (Timestamp_Time t)
  = 315964800 * 1000000000 + (if t <? 2 ^ 63 then t else t - 2 ^ 64)
  /\ 0 <= nanos (Timestamp_Time t) < 1000000000
  /\ (2 ^ 63 <= t -> unix_sec (Timestamp_Time t) < 315964800).
Proof.
  intros Ht. unfold Timestamp_Time.
  destruct (Time_Add_instant GPS (Duration_of_uint64 t)) as [Hsum Hn];
    [cbn; lia|].
  change (unix_sec GPS) with 315964800 in Hsum. change (nanos GPS) with 0 in Hsum.
  unfold Duration_of_uint64 in *.
  split; [lia|]. split; [exact Hn|].
  intros Hbig. destruct (Z.ltb_spec t (2 ^ 63)); lia.
Qed.

Lemma Timestamp_Time_instant_witness :
  unix_sec (Timestamp_Time (2 ^ 64 - 1)) * 1000000000 + nanos (Timestamp_Time (2 ^ 64 - 1))
  = 315964800 * 1000000000 + (if 2 ^ 64 - 1 <? 2 ^ 63 then 2 ^ 64 - 1 else 2 ^ 64 - 1 - 2 ^ 64)
  /\ 0 <= nanos (Timestamp_Time (2 ^ 64 - 1)) < 1000000000
  /\ (2 ^ 63 <= 2 ^ 64 - 1 -> unix_sec (Timestamp_Time (2 ^ 64 - 1)) < 315964800).
Proof.
  apply (Timestamp_Time_instant (2 ^ 64 - 1)). lia.
Defined.

(** ** The text of an identifier *)



(** ** The paths that are worked on *)

Lemma ext_scan_found (rp acc r : list ascii) :
  ext_scan rp acc = r -> r <> [] ->
  exists tl pre, rp = tl ++ "."%char :: pre /\ r = "."%char :: rev tl ++ acc.
Proof.
  revert acc. induction rp as [|c rp IH]; intros acc Hscan Hne; [simpl in Hscan; congruence|].
  cbn [ext_scan] in Hscan.
  destruct (Ascii.eqb_spec c slash); [congruence|].
  destruct (Ascii.eqb_spec c "."%char) as [-> | _].
  - exists [], rp. split; [reflexivity | now subst].
  - destruct (IH _ Hscan Hne) as (tl & pre & -> & ->).
    exists (c :: tl), pre. split; [reflexivity|].
    cbn [rev]. now rewrite <- app_assoc.
Qed.

(** The paths whose extension is [.bad] are the paths that end in [.bad]. *)
Lemma filepath_Ext_bad (p : string) :
  filepath_Ext p = bad <-> exists pre, p = pre +:+ bad.
Proof.
  unfold filepath_Ext, bad. split.
  - intros H. apply (f_equal list_ascii_of_string) in H.
    rewrite list_ascii_of_string_of_list_ascii in H.
    apply ext_scan_found in H as (tl & pre & Hrp & Hr); [|discriminate].
    rewrite app_nil_r in Hr. cbn in Hr. injection Hr as Hr.
    exists (string_of_list_ascii (rev pre)).
    rewrite <- (string_of_list_ascii_of_string p), <- (rev_involutive (list_ascii_of_string p)).
    rewrite Hrp, rev_app_distr. cbn [rev]. rewrite <- Hr, <- app_assoc. cbn [app].
    rewrite <- (string_of_list_ascii_of_string (_ +:+ ".bad")), list_ascii_of_append.
    now rewrite list_ascii_of_string_of_list_ascii.
  - intros (pre & ->). rewrite list_ascii_of_append, rev_app_distr. reflexivity.
Qed.

Lemma filepath_Walk_keepbad (es : list walk_entry) :
  filepath_Walk (walk_fn false) es
  = List.filter (fun p => negb (filepath_Ext p =? bad)%string)
                (filepath_Walk (walk_fn true) es).
Proof.
  induction es as [|e es IH]; [reflexivity|].
  cbn [filepath_Walk]. unfold walk_fn at 1 3.
  destruct (entry_err e); [reflexivity|].
  destruct (entry_is_dir e); [exact IH|].
  rewrite andb_false_r. cbn [negb andb app List.filter].
  destruct (filepath_Ext (entry_path e) =? bad)%string; cbn [negb andb app]; now rewrite IH.
Qed.

Lemma filepath_Walk_entries (keepbad : bool) (es : list walk_entry) (p : string) :
  In p (filepath_Walk (walk_fn keepbad) es) ->
  exists e, In e es /\ entry_path e = p /\ entry_is_dir e = false /\ entry_err e = None.
Proof.
  induction es as [|e es IH]; [intros []|].
  cbn [filepath_Walk]. unfold walk_fn at 1.
  destruct (entry_err e) eqn:Herr; [intros []|].
  destruct (entry_is_dir e) eqn:Hdir.
  - intros H. destruct (IH H) as (e' & ? & ?). exists e'. split; [now right | assumption].
  - destruct (_ && _); cbn [app].
    + intros H. destruct (IH H) as (e' & ? & ?). exists e'. split; [now right | assumption].
    + intros [<- | H].
      * exists e. repeat split; try assumption. now left.
      * destruct (IH H) as (e' & ? & ?). exists e'. split; [now right | assumption].
Qed.

Section PathsProperties.

Variable Walk_entries : string -> list walk_entry.

Lemma walkFiles_keepbad (files : list string) :
  walkFiles Walk_entries files false
  = List.filter (fun p => negb (filepath_Ext p =? bad)%string)
                (walkFiles Walk_entries files true).
Proof.
  induction files as [|f files IH]; [reflexivity|].
  cbn [walkFiles]. now rewrite List.filter_app, <- IH, <- filepath_Walk_keepbad.
Qed.

Lemma readFiles_walkFiles (stdin : list string) (keepbad : bool) :
  readFiles Walk_entries stdin keepbad
  = walkFiles Walk_entries (List.filter (fun f => negb (f =? "")%string) stdin) keepbad.
Proof.
  induction stdin as [|f stdin IH]; [reflexivity|].
  cbn [readFiles List.filter]. destruct (f =? "")%string; cbn [negb walkFiles];
    now rewrite IH.
Qed.

Lemma walkFiles_entries (files : list string) (keepbad : bool) (p : string) :
  In p (walkFiles Walk_entries files keepbad) ->
  exists f e, In f files /\ In e (Walk_entries f) /\ entry_path e = p /\
              entry_is_dir e = false /\ entry_err e = None.
Proof.
  induction files as [|f files IH]; [intros []|].
  cbn [walkFiles]. intros H. apply in_app_or in H as [H | H].
  - apply filepath_Walk_entries in H as (e & ? & ?). exists f, e.
    split; [now left | auto].
  - destruct (IH H) as (f' & e & ? & ?). exists f', e. split; [now right | assumption].
Qed.

(** X13: without [-k] the paths handed to [main] are those handed to it
    with [-k], in the same order, less the ones that end in [.bad]; so no
    path that ends in [.bad] is worked on unless [-k] is given.  In both
    cases a path that is handed on was visited by [filepath.Walk] as
    something that is not a directory and without an error. *)
Theorem iterFiles_keepbad (files stdin : list string) :
  iterFiles Walk_entries files stdin false
  = List.filter (fun p => negb (filepath_Ext p =? bad)%string)
                (iterFiles Walk_entries files stdin true)
  /\ (forall p, In p (iterFiles Walk_entries files stdin false) ->
                ~ exists pre, p = pre +:+ ".bad")
  /\ (forall keepbad p,
        In p (iterFiles Walk_entries files stdin keepbad) ->
        exists f e, In f (files ++ stdin) /\ In e (Walk_entries f) /\ entry_path e = p /\
                    entry_is_dir e = false /\ entry_err e = None).
Proof.
  assert (Hfilter : iterFiles Walk_entries files stdin false
                    = List.filter (fun p => negb (filepath_Ext p =? bad)%string)
                        (iterFiles Walk_entries files stdin true)).
  { unfold iterFiles. destruct files as [|f files].
    - now rewrite !readFiles_walkFiles, walkFiles_keepbad.
    - apply walkFiles_keepbad. }
  split; [exact Hfilter|]. split.
  - intros p Hin Hbad. rewrite Hfilter in Hin. apply List.filter_In in Hin as [_ Hkeep].
    apply (proj2 (filepath_Ext_bad p)) in Hbad. rewrite Hbad, String.eqb_refl in Hkeep.
    discriminate.
  - intros keepbad p. unfold iterFiles. destruct files as [|f files].
    + rewrite readFiles_walkFiles. intros H.
      apply walkFiles_entries in H as (f & e & Hf & He).
      exists f, e. split; [|exact He]. apply List.filter_In in Hf as [Hf _]. exact Hf.
    + intros H. apply walkFiles_entries in H as (f' & e & Hf & He).
      exists f', e. split; [apply in_or_app; now left | exact He].
Qed.

(** X14: the paths read from the standard input, when no argument is given,
    are handled exactly as if the lines that are not empty had been given
    as arguments; with arguments the standard input is not read. *)
Theorem iterFiles_stdin_as_arguments (stdin : list string) (keepbad : bool) :
  iterFiles Walk_entries [] stdin keepbad
  = walkFiles Walk_entries (List.filter (fun f => negb (f =? "")%string) stdin) keepbad
  /\ forall f files,
       iterFiles Walk_entries (f :: files) stdin keepbad
       = walkFiles Walk_entries (f :: files) keepbad.
Proof.
  split; [apply readFiles_walkFiles | reflexivity].
Qed.

End PathsProperties.

(** The sample tree: the file that ends in [.bad] is passed over, the walk
    of a root that does not exist gives nothing. *)
Lemma iterFiles_sample :
  iterFiles sample_walk ["/in"; "/missing"] [] false = ["/in/a.dat"; "/in/sub/c.dat"] /\
  iterFiles sample_walk [] [""; "/in"] true = ["/in/a.dat"; "/in/b.bad"; "/in/sub/c.dat"].
Proof. split; reflexivity. Qed.

(** ** More on the runner *)





Lemma step_counts (files : list string) (size : Z) (s s' : run_state) :
  step size (Live s) (Live s') ->
  Z.of_nat (length (queue s)) + fid s + in_admission (pc s)
  = Z.of_nat (length (queue s')) + fid s' + in_admission (pc s').
Proof.
  inversion 1; subst; cbn [queue fid pc in_admission length]; lia.
Qed.

Lemma reachable_counts (files : list string) (workers : Z) (p : process) :
  reachable files workers p ->
  match p with
  | Live s => Z.of_nat (length files)
              = Z.of_nat (length (queue s)) + fid s + in_admission (pc s)
  | Dead => True
  end.
Proof.
  induction 1 as [|p p' _ IH Hstep]; [cbn; lia|].
  destruct p' as [s'|]; [|exact I].
  destruct p as [s|]; [|inversion Hstep].
  rewrite IH. exact (step_counts files _ s s' Hstep).
Qed.


(** X16: the counter [fid] of [main] keeps the books of the paths: at any
    time the paths given to the run are those still in the channel, those
    whose goroutine has been started, and the one that [main] is admitting;
    so when [main] has returned it has started one goroutine for every path,
    and none of them is still under way. *)
Theorem every_path_started (files : list string) (workers : Z) (s : run_state) :
  reachable files workers (Live s) ->
  Z.of_nat (length files)
  = Z.of_nat (length (queue s)) + fid s + in_admission (pc s)
  /\ (pc s = Returned -> fid s = Z.of_nat (length files) /\ pool s = []).
Proof.
  intros Hreach. pose proof (reachable_counts _ _ _ Hreach) as Hcount. cbn in Hcount.
  split; [exact Hcount|]. intros Hret.
  apply reachable_invariant in Hreach as (Hcur & Hle & Hq).
  rewrite Hret in *. cbn [in_admission held_by_main] in *.
  rewrite Hq in Hcount by (now right). cbn [length] in Hcount.
  split; [lia|]. destruct (pool s); [reflexivity | cbn [length] in Hcur; lia].
Qed.


Ltac reach_sample_run_state :=
  unfold sample_run_state;
  eapply reach_step; [eapply reach_step; [eapply reach_step; [eapply reach_step;
    [apply reach_initial|]|]|]|];
  [ apply step_receive
  | apply step_acquire; reflexivity
  | apply step_go
  | apply (step_return _ "a" Skipped ["b"] Receiving 1 [] [] 1) ].


Lemma every_path_started_witness :
  Z.of_nat (length ["a"; "b"])
  = Z.of_nat (length (queue sample_run_state)) + fid sample_run_state
    + in_admission (pc sample_run_state)
  /\ (pc sample_run_state = Returned ->
      fid sample_run_state = Z.of_nat (length ["a"; "b"]) /\ pool sample_run_state = []).
Proof.
  apply (every_path_started ["a"; "b"] 0 sample_run_state).
  reach_sample_run_state.
Defined.


(** ** A block without columns *)

(** X18: when the column count of a block is 0, [processData] returns only
    if nothing follows the count: then the file holds the header line [t]
    alone.  If any byte follows, the row loop reads nothing and never
    ends: however many passes it is granted, the function has not
    returned. *)
Theorem processData_zero_columns (FormatFloat32 : Z -> string) (b : byte) (rs : list byte)
    (file : string) (fs fs1 : FS) (fuel : nat) :
  u8 b = 0 ->
  os_Create fs file = inl fs1 ->
  processData FormatFloat32 (S fuel) (b :: rs) file fs
  = match rs with
    | [] => Ret (None, write_file fs1 file
                         (list_byte_of_string (csv_text [[("t" : string)]])))
    | _ => Running
    end.
Proof.
  intros Hb Hcr. unfold processData. rewrite Hcr, Hb.
  change (Z.to_nat 0) with 0%nat. cbn [read_labels].
  destruct rs as [|x rs]; [reflexivity|].
  now rewrite sample_rows_zero_columns.
Qed.

Lemma processData_zero_columns_witness :
  processData sample_FormatFloat32 3 (bytes_of [0; 1; 2]) "/out/rows.csv" sample_fs = Running.
Proof.
  apply (processData_zero_columns sample_FormatFloat32 "000"%byte (bytes_of [1; 2])
           "/out/rows.csv" sample_fs
           {| dirs := dirs sample_fs; files := <["/out/rows.csv" := []]> (files sample_fs) |} 2).
  - reflexivity.
  - reflexivity.
Defined.

(** ** Joining paths *)

Lemma strings_Split_append (a b : string) (sep : ascii) :
  strings_Split (a +:+ String sep b) sep = strings_Split a sep ++ strings_Split b sep.
Proof.
  induction a as [|c a IH].
  - rewrite append_empty_l. cbn [strings_Split]. now rewrite Ascii.eqb_refl.
  - rewrite append_cons. cbn [strings_Split]. rewrite IH.
    destruct (Ascii.eqb c sep); [reflexivity|].
    pose proof (strings_Split_not_nil a sep).
    destruct (strings_Split a sep); [contradiction | reflexivity].
Qed.

Lemma clean_elems_app (rooted : bool) (kept l1 l2 : list string) :
  clean_elems rooted kept (l1 ++ l2) = clean_elems rooted (clean_elems rooted kept l1) l2.
Proof.
  revert kept. induction l1 as [|e l1 IH]; intros kept; [reflexivity|].
  cbn [app clean_elems].
  destruct ((e =? "")%string || (e =? ".")%string); [apply IH|].
  destruct (e =? "..")%string; [|apply IH].
  destruct kept as [|top rest]; [destruct rooted; apply IH|].
  destruct (top =? "..")%string; apply IH.
Qed.

Lemma length_clean_elems (rooted : bool) (kept elems : list string) :
  (length (clean_elems rooted kept elems) <= length kept + length elems)%nat.
Proof.
  revert kept. induction elems as [|x l IH]; intros k; cbn [clean_elems length]; [lia|].
  destruct (_ || _); [specialize (IH k); lia|].
  destruct (x =? "..")%string; [|specialize (IH (x :: k)); cbn [length] in IH; lia].
  destruct k as [|t k'].
  - destruct rooted; [specialize (IH []) | specialize (IH [x])]; cbn [length] in *; lia.
  - destruct (t =? "..")%string;
      [specialize (IH (x :: t :: k')) | specialize (IH k')]; cbn [length] in *; lia.
Qed.

(** A list of kept elements that cleaning leaves as it is. *)
Lemma clean_elems_stable (rooted : bool) (elems kept : list string) :
  clean_elems rooted [] (rev kept) = kept ->
  clean_elems rooted [] (rev (clean_elems rooted kept elems))
  = clean_elems rooted kept elems.
Proof.
  revert kept. induction elems as [|e elems IH]; intros kept Hkept; [exact Hkept|].
  cbn [clean_elems].
  destruct ((e =? "")%string || (e =? ".")%string) eqn:Hskip; [now apply IH|].
  destruct (String.eqb_spec e "..") as [-> | Hdd].
  - destruct kept as [|top rest].
    + destruct rooted; apply IH; reflexivity.
    + destruct (String.eqb_spec top "..") as [-> | Htop].
      * apply IH. cbn [rev] in Hkept |- *.
        rewrite clean_elems_app, Hkept. reflexivity.
      * apply IH. cbn [rev] in Hkept. rewrite clean_elems_app in Hkept.
        set (A := clean_elems rooted [] (rev rest)) in *.
        cbn [clean_elems] in Hkept.
        destruct ((top =? "")%string || (top =? ".")%string) eqn:Hts.
        -- exfalso.
           pose proof (length_clean_elems rooted [] (rev rest)) as Hlen.
           fold A in Hlen. rewrite Hkept in Hlen.
           cbn [length] in Hlen. rewrite length_rev in Hlen. lia.
        -- destruct (String.eqb_spec top ".."); [contradiction|].
           now injection Hkept.
  - apply IH. cbn [rev]. rewrite clean_elems_app, Hkept.
    cbn [clean_elems]. rewrite Hskip.
    destruct (String.eqb_spec e ".."); [contradiction | reflexivity].
Qed.

Lemma filepath_Clean_eq (p : string) :
  filepath_Clean p
  = clean_path (is_rooted p) (clean_elems (is_rooted p) [] (strings_Split p slash)).
Proof. reflexivity. Qed.

Lemma clean_elems_plain (rooted : bool) (elems kept : list string) :
  Forall (fun e => e <> EmptyString /\ ~ In slash (list_ascii_of_string e)) kept ->
  Forall (fun e => ~ In slash (list_ascii_of_string e)) elems ->
  Forall (fun e => e <> EmptyString /\ ~ In slash (list_ascii_of_string e))
         (clean_elems rooted kept elems).
Proof.
  revert kept. induction elems as [|e elems IH]; intros kept Hk He; [exact Hk|].
  inversion He as [|? ? He1 He2]; subst. cbn [clean_elems].
  destruct (String.eqb_spec e "") as [-> | Hne]; cbn [orb]; [now apply IH|].
  destruct (e =? ".")%string; [now apply IH|].
  destruct (e =? "..")%string; [|apply IH; [constructor; [split|]|]; assumption].
  destruct kept as [|top rest].
  - destruct rooted; apply IH; try assumption. constructor; [split; assumption | constructor].
  - inversion Hk; subst.
    destruct (top =? "..")%string; apply IH; try assumption.
    constructor; [split; assumption | exact Hk].
Qed.

Lemma strings_Join_head (e : string) (es : list string) (sep : string) :
  exists rest, strings_Join (e :: es) sep = e +:+ rest.
Proof.
  destruct es as [|e' es].
  - exists EmptyString. cbn. now rewrite append_empty_r.
  - eexists. reflexivity.
Qed.

(** Splitting a cleaned path and cleaning the elements again gives the
    elements that were kept, and a cleaned path starts at the root exactly
    when the path did. *)
Lemma filepath_Clean_elems (x : string) :
  is_rooted (filepath_Clean x) = is_rooted x /\
  clean_elems (is_rooted x) [] (strings_Split (filepath_Clean x) slash)
  = clean_elems (is_rooted x) [] (strings_Split x slash).
Proof.
  rewrite filepath_Clean_eq.
  set (r := is_rooted x). set (K := clean_elems r [] (strings_Split x slash)).
  assert (Hstable : clean_elems r [] (rev K) = K)
    by (apply clean_elems_stable; reflexivity).
  assert (Hplain : Forall (fun e => e <> EmptyString /\ ~ In slash (list_ascii_of_string e)) K).
  { apply clean_elems_plain; [constructor|]. apply strings_Split_segments. }
  assert (Hrev : Forall (fun e => e <> EmptyString /\ ~ In slash (list_ascii_of_string e))
                        (rev K)).
  { apply Forall_forall. intros e He. rewrite Forall_forall in Hplain.
    apply Hplain. apply list_elem_of_In. apply list_elem_of_In in He. now apply in_rev. }
  unfold clean_path.
  destruct (rev K) as [|e es] eqn:HK.
  - assert (K = []) as HK0.
    { apply (f_equal (@rev string)) in HK. now rewrite rev_involutive in HK. }
    rewrite HK0 in *. destruct r; split; reflexivity.
  - assert (Hsplit : strings_Split (strings_Join (e :: es) "/") slash = e :: es).
    { apply strings_Split_Join; [discriminate|].
      eapply Forall_impl; [exact Hrev | intros a Ha; apply Ha]. }
    destruct r.
    + change ("/" +:+ strings_Join (e :: es) "/")
        with (String slash (strings_Join (e :: es) "/")).
      split; [reflexivity|]. cbn [strings_Split]. rewrite Ascii.eqb_refl.
      rewrite Hsplit. cbn [clean_elems orb String.eqb]. exact Hstable.
    + rewrite append_empty_l.
      inversion Hrev as [|? ? [Hne Hns] _]; subst.
      destruct (strings_Join_head e es "/") as (rest & Hj).
      destruct e as [|c e]; [contradiction|].
      rewrite Hj in *. rewrite append_cons in *.
      split.
      * cbn [is_rooted]. apply Ascii.eqb_neq. intros ->. apply Hns. now left.
      * rewrite Hsplit. exact Hstable.
Qed.

Lemma is_rooted_append (x y : string) : x <> EmptyString -> is_rooted (x +:+ y) = is_rooted x.
Proof. destruct x; [contradiction | reflexivity]. Qed.

(** Cleaning the left part of a path first changes nothing. *)
Lemma filepath_Clean_left (x y : string) :
  x <> EmptyString ->
  filepath_Clean (filepath_Clean x +:+ "/" +:+ y) = filepath_Clean (x +:+ "/" +:+ y).
Proof.
  intros Hx. destruct (filepath_Clean_elems x) as [Hroot Helems].
  pose proof (filepath_Clean_not_empty x) as Hc.
  remember (filepath_Clean x) as cx eqn:Hcx. clear Hcx.
  rewrite !filepath_Clean_eq.
  change ("/" +:+ y) with (String slash y).
  rewrite !strings_Split_append, !clean_elems_app.
  rewrite (is_rooted_append cx _ Hc), (is_rooted_append x _ Hx).
  rewrite Hroot, Helems. reflexivity.
Qed.

(** Joining in two steps is joining in one. *)
Lemma filepath_Join_nested (a b c : string) :
  filepath_Join [filepath_Join [a; b]; c] = filepath_Join [a; b; c].
Proof.
  cbn [filepath_Join strings_Join].
  destruct (String.eqb_spec a "") as [-> | Ha].
  - destruct (String.eqb_spec b "") as [-> | Hb]; [reflexivity|].
    destruct (String.eqb_spec (filepath_Clean b) "") as [He | _];
      [now apply filepath_Clean_not_empty in He|].
    now apply filepath_Clean_left.
  - destruct (String.eqb_spec (filepath_Clean (a +:+ "/" +:+ b)) "") as [He | _];
      [now apply filepath_Clean_not_empty in He|].
    rewrite filepath_Clean_left by (apply append_not_empty_r; discriminate).
    now rewrite !append_assoc.
Qed.

(** ** Where the two outputs of a data record are *)

Lemma append_neq_self (p s : string) : s <> EmptyString -> p +:+ s <> p.
Proof.
  intros Hs H. apply (f_equal String.length) in H. rewrite length_append in H.
  destruct s; [contradiction | simpl in H; lia].
Qed.

Section OutputProperties.

Variable FormatFloat32 : Z -> string.
Variable xml_Encode : xml_document -> list byte.

Lemma processData_success (fuel : nat) (r : list byte) (file : string) (fs fs' : FS) :
  processData FormatFloat32 fuel r file fs = Ret (None, fs') ->
  exists fs1 out,
    os_Create fs file = inl fs1 /\
    fs' = write_file fs1 file (list_byte_of_string (csv_text out)).
Proof.
  unfold processData. destruct (os_Create fs file) as [fs1 | e]; [|discriminate].
  destruct r as [|b rs]; [discriminate|].
  destruct (read_labels _ rs) as [[labels | e] rs1]; [|discriminate].
  destruct (sample_rows _ _ _ _ _ _) as [[[e|] out] | msg |]; try discriminate.
  intros [= <-]. now exists fs1, out.
Qed.

Lemma processMeta_success (r r2 : list byte) (datadir upi source file : string)
    (per sub seq : Z) (when : Timestamp) (fs fs2 : FS) :
  processMeta xml_Encode r datadir upi source per seq when fs
  = Ret ((file, sub, None), r2, fs2) ->
  exists info,
    binary_Read_Metadata (H := LittleEndian) r = (inl info, r2) /\
    files fs2 !! (filepath_Join [filepath_Join [datadir; Sprintf_0d 6 sub]; file] +:+ ".xml")
    = Some (xml_Encode (metadata_document when seq source info)).
Proof.
  unfold processMeta.
  destruct (binary_Read_Metadata r) as [[info | e] r'] eqn:Hread; [|discriminate].
  destruct (per =? 0); [discriminate|].
  destruct (os_MkdirAll fs _) as [fs1 | e]; [|discriminate].
  destruct (os_Create fs1 _) as [fs3 | e]; [|discriminate].
  intros [= <- <- <- <-]. exists info. split; [reflexivity|].
  unfold write_file. simpl. apply lookup_insert_eq.
Qed.

(** X19: when a record that is not the first of its acquisition has been
    processed without an error, the file system holds the table at the
    returned path and, at that path followed by [.xml], the document made of
    the fixed-size record read from the file. *)
Theorem document_beside_table (fuel : nat) (fs fs' : FS) (file datadir path : string)
    (per : Z) (r r1 : list byte) (meta : envelope) :
  os_Open fs file = inl r ->
  binary_Read_envelope (H := BigEndian) r = (inl meta, r1) ->
  Seq meta <> 1 ->
  path <> EmptyString ->
  processFile FormatFloat32 xml_Encode fuel fs file datadir per = Ret ((path, None), fs') ->
  exists info r2 out,
    binary_Read_Metadata (H := LittleEndian) r1 = (inl info, r2) /\
    files fs' !! path = Some (list_byte_of_string (csv_text out)) /\
    files fs' !! (path +:+ ".xml")
    = Some (xml_Encode (metadata_document (When meta) (Seq meta) file info)).
Proof.
  intros Hopen Henv Hseq Hpath. unfold processFile. rewrite Hopen, Henv.
  destruct (negb _); [intros [= <- _]; contradiction|].
  destruct (identifier file) as [upi|]; [|discriminate].
  destruct (os_MkdirAll fs _) as [fs1 | e]; [|discriminate].
  destruct (Z.eqb_spec (Seq meta) 1) as [|_]; [contradiction|].
  destruct (processMeta _ _ _ _ _ _ _ _ _) as [[[[[file' sub] [e|]] r2] fs2] | msg |] eqn:Hmeta;
    try discriminate.
  destruct (processData _ _ _ _ _) as [[err fs3] | msg |] eqn:Hdata; try discriminate.
  intros Hret. assert (Hres : (filepath_Join [filepath_Join [datadir; upi];
                                                Sprintf_0d 6 sub; file'], err, fs3)
                              = (path, None, fs')) by congruence.
  clear Hret. apply pair_equal_spec in Hres as [Hres <-].
  apply pair_equal_spec in Hres as [<- ->].
  apply processMeta_success in Hmeta as (info & Hread & Hxml).
  apply processData_success in Hdata as (fs3' & out & Hcreate & ->).
  apply os_Create_spec in Hcreate as [_ Hfiles].
  exists info, r2, out. split; [exact Hread|]. split.
  - unfold write_file. cbn [files]. apply lookup_insert_eq.
  - rewrite filepath_Join_nested in Hxml.
    unfold write_file. cbn [files]. rewrite Hfiles.
    rewrite !lookup_insert_ne by (intros H; symmetry in H; revert H; now apply append_neq_self).
    exact Hxml.
Qed.

End OutputProperties.

Lemma document_beside_table_witness :
  exists fs',
    processFile sample_FormatFloat32 sample_xml_Encode 5 sample_fs sample_path "/out" 512
    = Ret (("/out/FOO/000000/000a_FOO_19800106_000080_000007.csv", None), fs') /\
    exists info r2 out,
      binary_Read_Metadata (H := LittleEndian) (drop 16 sample_file) = (inl info, r2) /\
      files fs' !! "/out/FOO/000000/000a_FOO_19800106_000080_000007.csv"
      = Some (list_byte_of_string (csv_text out)) /\
      files fs' !! "/out/FOO/000000/000a_FOO_19800106_000080_000007.csv.xml"
      = Some (sample_xml_Encode (metadata_document 9 2 sample_path info)).
Proof.
  eexists. split; [vm_compute; reflexivity|].
  apply (document_beside_table sample_FormatFloat32 sample_xml_Encode 5 sample_fs _
           sample_path "/out" "/out/FOO/000000/000a_FOO_19800106_000080_000007.csv" 512
           sample_file (drop 16 sample_file)
           {| FCC := list_byte_of_string "SVS "; Seq := 2; When := 9 |}).
  - reflexivity.
  - vm_compute. reflexivity.
  - simpl. lia.
  - discriminate.
  - vm_compute. reflexivity.
Defined.
